(** * mReasoner wrapper: a shallow embedding of [mreasoner/mreasoner.py]

    The Python class [MReasoner] drives a Clozure Common LISP child process
    over line-oriented pipes.  This development embeds

    - the Python string primitives the wrapper relies on ([Py]),
    - the premise encoder [construct_premises],
    - the per-line body of the reader thread ([stdout_reader]),
    - the command/query protocol ([_send], [query], [set_param], ...),
    - the fitting objective [_fit_fun] and the multi-start driver [fit],

    and proves properties of them.  Logging calls are omitted throughout:
    they do not influence control flow or any value that is returned. *)

From Stdlib Require Import ZArith QArith Qcanon Ascii String List Lia.
From Stdlib Require Import DecimalString.
From stdpp Require Import base option list gmap strings fin_maps.

Local Open Scope string_scope.

(** ** Exceptions and outcomes

    A Python call either returns a value, raises, or (for the blocking
    [queue.Queue.get]) never returns.  [AssertionError] carries the source
    line of the [assert] statement that raised it. *)

Inductive exn : Type :=
  | AssertionError (line : nat)
  | ValueError
  | KeyError
  | IndexError
  | ZeroDivisionError
  | UnicodeDecodeError.

Inductive outcome (A : Type) : Type :=
  | Ret (a : A)
  | Exc (e : exn)
  | Block.

Arguments Ret {A} a.
Arguments Exc {A} e.
Arguments Block {A}.

Definition exn_eqb (e1 e2 : exn) : bool :=
  match e1, e2 with
  | AssertionError l1, AssertionError l2 => Nat.eqb l1 l2
  | ValueError, ValueError
  | KeyError, KeyError
  | IndexError, IndexError
  | ZeroDivisionError, ZeroDivisionError
  | UnicodeDecodeError, UnicodeDecodeError => true
  | _, _ => false
  end.

(** [raises e o]: the outcome [o] is the exception [e]. *)
Definition raises {A} (e : exn) (o : outcome A) : bool :=
  match o with
  | Exc e' => exn_eqb e e'
  | _ => false
  end.

Definition obind {A B} (o : outcome A) (k : A -> outcome B) : outcome B :=
  match o with
  | Ret a => k a
  | Exc e => Exc e
  | Block => Block
  end.

Definition omap {A B} (f : A -> B) (o : outcome A) : outcome B :=
  obind o (fun a => Ret (f a)).

(** ** Python string primitives *)

Module Py.

Definition dquote : ascii := "034"%char.

(** [str.isspace] on ASCII: TAB, LF, VT, FF, CR, FS, GS, RS, US, SPACE. *)
Definition isspace (c : ascii) : bool :=
  let n := nat_of_ascii c in
  (((9 <=? n) && (n <=? 13)) || ((28 <=? n) && (n <=? 32)))%nat.

Definition isdigit (c : ascii) : bool :=
  let n := nat_of_ascii c in ((48 <=? n) && (n <=? 57))%nat.

Definition is_empty (s : string) : bool :=
  match s with EmptyString => true | String _ _ => false end.

(** [s.startswith(p)] *)
Definition startswith (p s : string) : bool := String.prefix p s.

(** [needle in s] *)
Fixpoint contains (needle s : string) : bool :=
  String.prefix needle s ||
  match s with
  | EmptyString => false
  | String _ s' => contains needle s'
  end.

(** [s[n:]] for a non-negative [n] *)
Fixpoint slice_from (n : nat) (s : string) : string :=
  match n, s with
  | O, _ => s
  | S n', String _ s' => slice_from n' s'
  | S _, EmptyString => EmptyString
  end.

(** [s[i]], with Python's negative indices; the result is a string of
    length one. *)
Definition index (s : string) (i : Z) : outcome string :=
  let len := Z.of_nat (String.length s) in
  let j := if (i <? 0)%Z then (len + i)%Z else i in
  if ((j <? 0) || (len <=? j))%Z then Exc IndexError
  else match String.get (Z.to_nat j) s with
       | Some c => Ret (String c EmptyString)
       | None => Exc IndexError
       end.

(** [s.replace(old, new)] for a one-character [old] *)
Fixpoint replace (old : ascii) (new s : string) : string :=
  match s with
  | EmptyString => EmptyString
  | String c s' =>
      if Ascii.eqb c old then new ++ replace old new s'
      else String c (replace old new s')
  end.

Fixpoint lstrip (s : string) : string :=
  match s with
  | EmptyString => EmptyString
  | String c s' => if isspace c then lstrip s' else s
  end.

Fixpoint rstrip (s : string) : string :=
  match s with
  | EmptyString => EmptyString
  | String c s' =>
      let r := rstrip s' in
      if isspace c && is_empty r then EmptyString else String c r
  end.

(** [s.strip()] *)
Definition strip (s : string) : string := rstrip (lstrip s).

(** [s.split()]: split on runs of whitespace, no empty fields.  [cur] is
    the field being read. *)
Fixpoint split_from (cur s : string) : list string :=
  match s with
  | EmptyString => if is_empty cur then [] else [cur]
  | String c s' =>
      if isspace c
      then (if is_empty cur then split_from EmptyString s'
            else cur :: split_from EmptyString s')
      else split_from (cur ++ String c EmptyString) s'
  end.

Definition split (s : string) : list string := split_from EmptyString s.

(** [t.format] applied to the unpacked [args], for templates whose only
    fields are [{}]; too few
    arguments raise [IndexError], a lone brace raises [ValueError]. *)
Fixpoint format (t : string) (args : list string) : outcome string :=
  match t with
  | EmptyString => Ret EmptyString
  | String "{" (String "}" t') =>
      match args with
      | a :: args' => omap (String.append a) (format t' args')
      | [] => Exc IndexError
      end
  | String c t' =>
      if Ascii.eqb c "{" || Ascii.eqb c "}" then Exc ValueError
      else omap (String c) (format t' args)
  end.

(** ** [float(s)] succeeds

    The accepted language, for ASCII text, after stripping whitespace:
    an optional sign followed by [inf], [infinity] or [nan] in any case,
    or by a decimal number: digits with single underscores between them,
    an optional fraction and an optional exponent. *)

Definition lower (c : ascii) : ascii :=
  let n := nat_of_ascii c in
  if ((65 <=? n) && (n <=? 90))%nat then ascii_of_nat (n + 32) else c.

Fixpoint lower_str (s : string) : string :=
  match s with
  | EmptyString => EmptyString
  | String c s' => String (lower c) (lower_str s')
  end.

Definition is_sign (c : ascii) : bool := Ascii.eqb c "+" || Ascii.eqb c "-".

Definition skip_sign (s : string) : string :=
  match s with
  | String c s' => if is_sign c then s' else s
  | EmptyString => s
  end.

(** After a digit: consume further digits, each optionally preceded by
    one underscore, and return what is left. *)
Fixpoint digits_tail (s : string) : string :=
  match s with
  | EmptyString => EmptyString
  | String c s' =>
      if isdigit c then digits_tail s'
      else if Ascii.eqb c "_" then
        match s' with
        | String d s'' => if isdigit d then digits_tail s'' else s
        | EmptyString => s
        end
      else s
  end.

(** A [digitpart]: at least one digit. *)
Definition digitpart (s : string) : option string :=
  match s with
  | String c s' => if isdigit c then Some (digits_tail s') else None
  | EmptyString => None
  end.

Definition exponent_ok (s : string) : bool :=
  match s with
  | EmptyString => true
  | String c s' =>
      if Ascii.eqb (lower c) "e" then
        match digitpart (skip_sign s') with
        | Some r => is_empty r
        | None => false
        end
      else false
  end.

Definition number_ok (s : string) : bool :=
  match digitpart s with
  | Some r =>
      match r with
      | String "." r' =>
          match digitpart r' with
          | Some r'' => exponent_ok r''
          | None => exponent_ok r'
          end
      | _ => exponent_ok r
      end
  | None =>
      match s with
      | String "." r' =>
          match digitpart r' with
          | Some r'' => exponent_ok r''
          | None => false
          end
      | _ => false
      end
  end.

Definition is_float (s : string) : bool :=
  let body := skip_sign (strip s) in
  let low := lower_str body in
  String.eqb low "inf" || String.eqb low "infinity" || String.eqb low "nan"
  || number_ok body.

End Py.

(** ** The outcome monad *)

#[global] Instance outcome_ret : MRet outcome := @Ret.
#[global] Instance outcome_bind : MBind outcome := fun A B k o => obind o k.

(** [d[k]] on a dict literal, kept as an association list in source order. *)
Definition dict_get {V} (d : list (string * V)) (k : string) : outcome V :=
  match List.find (fun kv => String.eqb (fst kv) k) d with
  | Some kv => Ret (snd kv)
  | None => Exc KeyError
  end.

(** ** [MReasoner.construct_premises]

    The two copies of the method (in [mreasoner.py] and in
    [mreasoner/mreasoner.py]) are identical. *)

Definition template_quant : list (string * string) :=
  [ ("A", "All {} are {}");
    ("I", "Some {} are {}");
    ("E", "No {} are {}");
    ("O", "Some {} are not {}") ].

(** Each figure holds the term pair of the first and of the second premise. *)
Definition template_fig : list (string * (list string * list string)) :=
  [ ("1", (["A"; "B"], ["B"; "C"]));
    ("2", (["B"; "A"], ["C"; "B"]));
    ("3", (["A"; "B"], ["C"; "B"]));
    ("4", (["B"; "A"], ["B"; "C"])) ].

Definition construct_premises (syllog : string) : outcome (string * string) :=
  q1 ← Py.index syllog 0;
  t1 ← dict_get template_quant q1;
  f1 ← Py.index syllog (-1);
  terms1 ← dict_get template_fig f1;
  prem1 ← Py.format t1 (fst terms1);
  q2 ← Py.index syllog 1;
  t2 ← dict_get template_quant q2;
  f2 ← Py.index syllog (-1);
  terms2 ← dict_get template_fig f2;
  prem2 ← Py.format t2 (snd terms2);
  Ret (prem1, prem2).

(** *** Syllogism identifiers and the documented premise pair *)

Inductive quantifier : Type := QA | QI | QE | QO.
Inductive figure : Type := F1 | F2 | F3 | F4.

Definition quant_letter (q : quantifier) : ascii :=
  match q with QA => "A" | QI => "I" | QE => "E" | QO => "O" end%char.

Definition fig_digit (f : figure) : ascii :=
  match f with F1 => "1" | F2 => "2" | F3 => "3" | F4 => "4" end%char.

Definition syllog_id (q1 q2 : quantifier) (f : figure) : string :=
  String (quant_letter q1)
    (String (quant_letter q2) (String (fig_digit f) EmptyString)).

(** The sentence a quantifier makes of a subject [x] and a predicate [y]. *)
Definition premise_text (q : quantifier) (x y : string) : string :=
  match q with
  | QA => "All " ++ x ++ " are " ++ y
  | QI => "Some " ++ x ++ " are " ++ y
  | QE => "No " ++ x ++ " are " ++ y
  | QO => "Some " ++ x ++ " are not " ++ y
  end.

(** The term arrangement of a figure: (subject, predicate) of each premise. *)
Definition figure_terms (f : figure) : (string * string) * (string * string) :=
  match f with
  | F1 => (("A", "B"), ("B", "C"))
  | F2 => (("B", "A"), ("C", "B"))
  | F3 => (("A", "B"), ("C", "B"))
  | F4 => (("B", "A"), ("B", "C"))
  end.

Definition documented_premises (q1 q2 : quantifier) (f : figure)
  : string * string :=
  let '((x1, y1), (x2, y2)) := figure_terms f in
  (premise_text q1 x1 y1, premise_text q2 x2 y2).

(** ** The reader thread: [stdout_reader]

    [classify] is the body of the [while True] loop after the line has been
    read, decoded and stripped.  It yields the entries the iteration puts on
    [resp_queue], in order, and how the iteration leaves the loop body. *)

Inductive reader_ctl : Type :=
  | Continue              (* next iteration *)
  | Break                 (* the loop is left: termination handling *)
  | Crash (e : exn).      (* an uncaught exception ends the thread *)

(** A string between double quotes. *)
Definition quoted (s : string) : string :=
  String Py.dquote (s ++ String Py.dquote EmptyString).

Definition dquote_str : string := String Py.dquote EmptyString.

Definition classify (text : string) : list string * reader_ctl :=
  if Py.startswith ";" text then ([], Continue)
  else if Py.contains "TERMINATE" text then ([], Break)
  else
    let halt :=
      if Py.contains "While executing:" text || Py.contains "Error:" text
      then ["HALT"] else [] in
    if Py.startswith "?" text then
      let query_result := Py.slice_from 2 text in
      if Py.is_float query_result then (halt, Continue)
      else
        match Py.index query_result 0, Py.index query_result (-1) with
        | Ret first, Ret last =>
            if String.eqb first "(" && String.eqb last ")" then
              ((halt ++ [query_result])%list, Continue)
            else if String.eqb first dquote_str && String.eqb last dquote_str
            then
              ((halt ++ [Py.replace Py.dquote EmptyString query_result])%list,
               Continue)
            else if String.eqb query_result "NIL" then
              ((halt ++ [query_result])%list, Continue)
            else (halt, Continue)
        | Exc e, _ => (halt, Crash e)
        | _, Exc e => (halt, Crash e)
        | _, _ => (halt, Continue)
        end
    else (halt, Continue).

(** [bytes.decode('ascii')] *)
Definition decode_ascii (raw : string) : outcome string :=
  if forallb (fun c => (nat_of_ascii c <? 128)%nat) (list_ascii_of_string raw)
  then Ret raw else Exc UnicodeDecodeError.

(** One iteration on the line [raw] returned by [readline]. *)
Definition stdout_reader_step (raw : string) : list string * reader_ctl :=
  match decode_ascii raw with
  | Ret decoded => classify (Py.strip decoded)
  | Exc e => ([], Crash e)
  | Block => ([], Continue)
  end.

Inductive reader_status : Type :=
  | Reading               (* waiting in [readline] for the next line *)
  | Stopped               (* left the loop after the termination keyword *)
  | Died (e : exn).

(** The loop over the lines the child process prints: everything put on
    [resp_queue], and the state the thread ends in. *)
Fixpoint stdout_reader (lines : list string) : list string * reader_status :=
  match lines with
  | [] => ([], Reading)
  | raw :: rest =>
      let '(puts, ctl) := stdout_reader_step raw in
      match ctl with
      | Continue =>
          let '(more, status) := stdout_reader rest in
          ((puts ++ more)%list, status)
      | Break => (puts, Stopped)
      | Crash e => (puts, Died e)
      end
  end.

(** *** Vocabulary of the statements about the reader *)

(** A result line: the prompt character, one more character and the
    payload, which is [text[2:]]. *)
Definition result_line (c : ascii) (payload : string) : string :=
  String "?" (String c payload).

Fixpoint all_chars (P : ascii -> bool) (s : string) : bool :=
  match s with
  | EmptyString => true
  | String c s' => P c && all_chars P s'
  end.

Definition mem (c : ascii) (s : string) : bool :=
  existsb (Ascii.eqb c) (list_ascii_of_string s).

(** The characters a text accepted by [float] can be made of. *)
Definition float_char (c : ascii) : bool :=
  Py.isspace c || Py.isdigit c || Py.is_sign c || mem c "._"
  || mem (Py.lower c) "infatye".

(** ** The wrapper object and its methods

    [resp_queue] holds, in the order the reader thread puts them, the
    entries not yet taken by the caller; as [Queue.get] waits for the
    reader, this includes the entries the reader delivers while the caller
    waits.  Every command appended to [executed_commands] is also written to
    the standard input of the child process, followed by a newline; the
    commands are ASCII text, so encoding them does not fail.  The debug list
    [received_messages], which only the reader appends to, is left out.

    Python floats are represented by exact rationals. *)

Record mreasoner : Type := MReasoner {
  param_bounds : list (Qc * Qc);
  executed_commands : list string;
  resp_queue : list string;
  default_params : list (string * Qc);
  params : gmap string Qc
}.

Definition M (A : Type) : Type := mreasoner -> outcome A * mreasoner.

#[global] Instance M_ret : MRet M := fun A a st => (Ret a, st).
#[global] Instance M_bind : MBind M := fun A B k m st =>
  match m st with
  | (Ret a, st') => k a st'
  | (Exc e, st') => (Exc e, st')
  | (Block, st') => (Block, st')
  end.

Definition raise {A} (e : exn) : M A := fun st => (Exc e, st).
Definition lift {A} (o : outcome A) : M A := fun st => (o, st).
Definition self : M mreasoner := fun st => (Ret st, st).

Fixpoint for_each {A} (body : A -> M unit) (l : list A) : M unit :=
  match l with
  | [] => mret tt
  | x :: l' => body x;; for_each body l'
  end.

Fixpoint fold_loop {A B} (body : B -> A -> M B) (acc : B) (l : list A) : M B :=
  match l with
  | [] => mret acc
  | x :: l' => acc' ← body acc x; fold_loop body acc' l'
  end.

(** [self.resp_queue.get()] *)
Definition resp_queue_get : M string := fun st =>
  match resp_queue st with
  | [] => (Block, st)
  | entry :: rest =>
      (Ret entry,
       MReasoner (param_bounds st) (executed_commands st) rest
                 (default_params st) (params st))
  end.

(** [self._send(cmd)]; the result of [cmd.strip()] is discarded there. *)
Definition _send (cmd : string) : M unit := fun st =>
  (Ret tt,
   MReasoner (param_bounds st) (executed_commands st ++ [cmd]) (resp_queue st)
             (default_params st) (params st)).

(** [self.params[param] = value] *)
Definition params_setitem (param : string) (value : Qc) : M unit := fun st =>
  (Ret tt,
   MReasoner (param_bounds st) (executed_commands st) (resp_queue st)
             (default_params st) (<[param := value]> (params st))).

(** *** Fixed-point rendering of a number: the format field [{:f}] *)

Definition pad6 (s : string) : string :=
  string_of_list_ascii (repeat "0"%char (6 - String.length s)) ++ s.

Definition format_f (q : Qc) : string :=
  let num := Z.abs (Qnum (this q)) in
  let den := Zpos (Qden (this q)) in
  let scaled := (num * 1000000)%Z in
  let quo := (scaled / den)%Z in
  let rem := (scaled mod den)%Z in
  let rounded :=
    if (den <? 2 * rem)%Z then (quo + 1)%Z
    else if (den =? 2 * rem)%Z then (quo + quo mod 2)%Z
    else quo in
  (if (Qnum (this q) <? 0)%Z then "-" else EmptyString)
  ++ DecimalString.NilZero.string_of_uint
       (N.to_uint (Z.to_N (rounded / 1000000)))
  ++ "."
  ++ pad6 (DecimalString.NilEmpty.string_of_uint
             (N.to_uint (Z.to_N (rounded mod 1000000)))).

(** *** [MReasoner.set_param]; the command is
    ['(setf +{}+ {:f})'.format(param, value)] *)
Definition set_param (param : string) (value : Qc) : M unit :=
  st ← self;
  if decide (params st !! param = None) then raise ValueError
  else
    params_setitem param value;;
    _send ("(setf +" ++ param ++ "+ " ++ format_f value ++ ")").

Definition param_names : list string := ["epsilon"; "lambda"; "omega"; "sigma"].

(** *** [MReasoner.set_param_vec] *)
Definition set_param_vec (values : list Qc) : M unit :=
  for_each (fun nv => set_param (fst nv) (snd nv)) (zip param_names values).

(** *** [MReasoner.query] *)
Definition query (syllog : string) : M (list string) :=
  prems ← lift (construct_premises syllog);
  cmd ← lift (Py.format "(what-follows? (list (parse '({})) (parse '({}))))"
                        [fst prems; snd prems]);
  cmd ← lift (Py.format "(setf resp {})" [cmd]);
  _send cmd;;
  query_result ← resp_queue_get;
  conclusion ←
    (if Py.contains "Q-INTENSION" query_result then
       _send "(map 'list (lambda (x) (abbreviate x)) resp)";;
       resp_queue_get
     else if Py.contains "NULL-INTENSION" query_result
             || String.eqb query_result "NIL" then
       (if Py.contains "Q-INTENSION" query_result
        then raise (AssertionError 278) else mret tt);;
       mret "NVC"
     else raise (AssertionError 282));
  mret (Py.split
          (Py.replace ")" EmptyString
             (Py.replace "(" EmptyString
                (Py.replace Py.dquote EmptyString conclusion)))).

(** *** [MReasoner.terminate] *)
Definition terminate : M unit :=
  _send ("(prin1 " ++ quoted "TERMINATE" ++ ")");;
  _send "(quit)".

(** *** [MReasoner.__init__]

    [system] is [platform.system()], [sep] is [os.sep] and [fasl_exists]
    is [os.path.exists(fasl_path)]. *)

Definition FASL_ENDINGS : list (string * string) :=
  [("Darwin", "dx64fsl"); ("Windows", "wx64fsl"); ("Linux", "lx64fsl")].

Definition Qc_of_nat (n : nat) : Qc := Qc_of_Z (Z.of_nat n).

Definition factory_defaults : list (string * Qc) :=
  [ ("epsilon", 0%Qc); ("lambda", Qc_of_Z 4);
    ("omega", 1%Qc); ("sigma", 0%Qc) ].

Definition blank (reader_entries : list string) : mreasoner :=
  MReasoner
    [ (0%Qc, 1%Qc); (Q2Qc (1 # 10), Qc_of_Z 8); (0%Qc, 1%Qc); (0%Qc, 1%Qc) ]
    [] reader_entries [] ∅.

Definition __init__ (mreasoner_dir sep system : string) (fasl_exists : bool)
  : M unit :=
  let mreasoner_file := mreasoner_dir ++ sep ++ "+mReasoner.lisp" in
  ending ← lift (dict_get FASL_ENDINGS system);
  let fasl_path := mreasoner_dir ++ sep ++ "+mReasoner." ++ ending in
  (if fasl_exists then mret tt
   else _send ("(compile-file "
               ++ quoted (Py.replace "\" "/" mreasoner_file) ++ ")"));;
  _send ("(load " ++ quoted (Py.replace "\" "/" fasl_path) ++ ")");;
  _send "(defvar resp 0)";;
  (fun st =>
     (Ret tt,
      MReasoner (param_bounds st) (executed_commands st) (resp_queue st)
                factory_defaults (list_to_map factory_defaults)));;
  for_each
    (fun name => st ← self;
                 value ← lift (match params st !! name with
                               | Some v => Ret v
                               | None => Exc KeyError
                               end);
                 set_param name value)
    param_names.

(** The instance right after construction on a Linux host with a compiled
    engine, with [reader_entries] still to be delivered by the reader. *)
Definition fresh (reader_entries : list string) : mreasoner :=
  snd (__init__ ".mreasoner/mReasoner/src" "/" "Linux" true
                (blank reader_entries)).

(** *** Vocabulary of the statements about the protocol *)

(** The command of the generation phase for a premise pair. *)
Definition what_follows (prems : string * string) : string :=
  "(what-follows? (list (parse '(" ++ fst prems ++ ")) (parse '("
  ++ snd prems ++ "))))".

Definition generation_command (prems : string * string) : string :=
  "(setf resp " ++ what_follows prems ++ ")".

Definition interpretation_command : string :=
  "(map 'list (lambda (x) (abbreviate x)) resp)".

(** The instance after [cmds] have been sent and the queue is down to
    [queue]. *)
Definition sent (cmds queue : list string) (st : mreasoner) : mreasoner :=
  MReasoner (param_bounds st) (executed_commands st ++ cmds) queue
            (default_params st) (params st).

(** The keys of [self.params] are the four parameter names. *)
Definition keys_ok (st : mreasoner) : Prop :=
  forall name, is_Some (params st !! name) <-> name ∈ param_names.

(** The instance holds the factory defaults and the four parameter keys. *)
Definition factory_ok (st : mreasoner) : Prop :=
  default_params st = factory_defaults /\ keys_ok st.

(** The factory defaults in the order epsilon, lambda, omega, sigma. *)
Definition factory_vector : list Qc := [0%Qc; Qc_of_Z 4; 1%Qc; 0%Qc].

(** An entry of the generation phase that names both kinds of intension. *)
Definition mixed_entry : string :=
  "(#<Q-INTENSION #x1> #<NULL-INTENSION #x2>)".

(** The four commands that put the engine back on the factory defaults. *)
Definition reset_commands : list string :=
  [ "(setf +epsilon+ 0.000000)"; "(setf +lambda+ 4.000000)";
    "(setf +omega+ 1.000000)"; "(setf +sigma+ 0.000000)" ].

(** *** [MReasoner._fit_fun]

    Every caller in the module leaves [include_param] at its default
    [False], so the objective alone is returned. *)

(** [1/len(pred) if resp in pred else 0] *)
Definition score_of (resp : string) (pred : list string) : Qc :=
  if bool_decide (resp ∈ pred) then (1 / Qc_of_nat (length pred))%Qc
  else 0%Qc.

Definition _fit_fun (values : list Qc) (train_x train_y : list string) : M Qc :=
  set_param_vec values;;
  score ← fold_loop
            (fun score tr => pred ← query (fst tr);
                             mret (score + score_of (snd tr) pred)%Qc)
            0%Qc (zip train_x train_y);
  match length train_x with
  | O => raise ZeroDivisionError
  | S _ => mret (1 - score / Qc_of_nat (length train_x))%Qc
  end.

(** The predictions of the queries of one evaluation, in task order. *)
Fixpoint run_queries (tasks : list string) : M (list (list string)) :=
  match tasks with
  | [] => mret []
  | task :: tasks' =>
      pred ← query task;
      preds ← run_queries tasks';
      mret (pred :: preds)
  end.

(** The sum of the scores of the responses against the predictions. *)
Definition total_score (resps : list string) (preds : list (list string))
  : Qc :=
  foldr Qcplus 0%Qc (zip_with score_of resps preds).

(** A stub engine: the entries the reader delivers when every generation
    phase yields a quantified intension and every interpretation phase the
    single conclusion of [answers]. *)
Definition stub_entries (answers : list string) : list string :=
  flat_map (fun a => ["(#<Q-INTENSION #x1>)"; "(" ++ quoted a ++ ")"]) answers.

(** *** [MReasoner.fit] *)

Record OptimizeResult : Type := {
  res_success : bool;
  res_fun : Qc;
  res_x : list Qc
}.

(** [sorted(results, key=lambda x: x[0])]: a stable sort on the score. *)
Fixpoint insert_by_score (r : Qc * list Qc) (l : list (Qc * list Qc))
  : list (Qc * list Qc) :=
  match l with
  | [] => [r]
  | r' :: l' =>
      if decide (fst r ≤ fst r')%Qc then r :: l
      else r' :: insert_by_score r l'
  end.

Definition sorted_by_score (l : list (Qc * list Qc)) : list (Qc * list Qc) :=
  foldr insert_by_score [] l.

Section Fit.

(** The iteration [idx] of the loop draws [start_params] from
    [np.random.uniform] and hands [self._fit_fun] to SciPy's L-BFGS-B
    driver; [minimize idx train_x train_y] stands for the two together.
    The driver touches the instance only by calling [self._fit_fun]. *)
Variable minimize : nat -> list string -> list string -> M OptimizeResult.

Fixpoint fit_runs (idxs : list nat) (train_x train_y : list string)
         (results : list (Qc * list Qc)) : M (list (Qc * list Qc)) :=
  match idxs with
  | [] => mret results
  | idx :: rest =>
      res ← minimize idx train_x train_y;
      fit_runs rest train_x train_y
        (if res_success res then results ++ [(res_fun res, res_x res)]
         else results)
  end.

Definition fit (train_x train_y : list string) (num_fits : Z)
  : M (Qc * list Qc) :=
  results ← fit_runs (seq 0 (Z.to_nat num_fits)) train_x train_y [];
  st ← self;
  if negb (Z.of_nat (length results) =? num_fits)%Z
     && bool_decide (results = [])
  then
    for_each (fun pv => set_param (fst pv) (snd pv)) (default_params st);;
    defaults ← lift (mapM (dict_get (default_params st)) param_names);
    mret ((- 1)%Qc, defaults)
  else
    match sorted_by_score results with
    | [] => raise IndexError
    | (optim_score, optim_params) :: _ =>
        set_param_vec optim_params;;
        mret (optim_score, optim_params)
    end.

(** Every run of [idxs], started in [st], returns without success; the
    instance is [st_end] after the last one. *)
Fixpoint all_runs_fail (idxs : list nat) (train_x train_y : list string)
         (st st_end : mreasoner) : Prop :=
  match idxs with
  | [] => st_end = st
  | idx :: rest =>
      exists res st',
        minimize idx train_x train_y st = (Ret res, st') /\
        res_success res = false /\
        all_runs_fail rest train_x train_y st' st_end
  end.

End Fit.

(** A driver whose every run stops without success and leaves the instance
    alone. *)
Definition failing_minimize (idx : nat) (train_x train_y : list string)
  : M OptimizeResult :=
  mret {| res_success := false; res_fun := 1%Qc; res_x := [] |}.

(** ** Vocabulary of the further statements *)

(** *** Reading an identifier back *)

Definition quant_of (c : ascii) : option quantifier :=
  if Ascii.eqb c "A" then Some QA
  else if Ascii.eqb c "I" then Some QI
  else if Ascii.eqb c "E" then Some QE
  else if Ascii.eqb c "O" then Some QO
  else None.

Definition fig_of (c : ascii) : option figure :=
  if Ascii.eqb c "1" then Some F1
  else if Ascii.eqb c "2" then Some F2
  else if Ascii.eqb c "3" then Some F3
  else if Ascii.eqb c "4" then Some F4
  else None.

(** The quantifiers and the figure an identifier names at its first, second
    and last position, when it names them. *)
Definition decode_syllog (s : string)
  : option (quantifier * quantifier * figure) :=
  match String.get 0 s, String.get 1 s,
        String.get (String.length s - 1) s with
  | Some a, Some b, Some c =>
      match quant_of a, quant_of b, fig_of c with
      | Some q1, Some q2, Some f => Some (q1, q2, f)
      | _, _, _ => None
      end
  | _, _, _ => None
  end.

Definition all_quantifiers : list quantifier := [QA; QI; QE; QO].
Definition all_figures : list figure := [F1; F2; F3; F4].

(** The 64 identifiers. *)
Definition all_syllogisms : list string :=
  q1 ← all_quantifiers; q2 ← all_quantifiers; f ← all_figures;
  [syllog_id q1 q2 f].

(** *** Candidate lists *)

(** The last statement of [query]: the double quotes and the two
    parentheses are replaced by nothing, then the text is split. *)
Definition parse_candidates (conclusion : string) : list string :=
  Py.split
    (Py.replace ")" EmptyString
       (Py.replace "(" EmptyString
          (Py.replace Py.dquote EmptyString conclusion))).

(** A character that survives the three replacements and the split. *)
Definition token_char (c : ascii) : bool :=
  negb (Py.isspace c || Ascii.eqb c Py.dquote
        || Ascii.eqb c "(" || Ascii.eqb c ")").

(** A candidate: a non-empty text of token characters. *)
Definition is_token (w : string) : bool :=
  negb (Py.is_empty w) && all_chars token_char w.

(** The way the engine prints a list of strings: each between double
    quotes, separated by one space, the whole between parentheses. *)
Fixpoint render_words (ws : list string) : string :=
  match ws with
  | [] => EmptyString
  | [w] => quoted w
  | w :: ws' => quoted w ++ " " ++ render_words ws'
  end.

Definition render_candidates (ws : list string) : string :=
  "(" ++ render_words ws ++ ")".

(** No double quote and no parenthesis. *)
Definition plain_char (c : ascii) : bool :=
  negb (Ascii.eqb c ")") && (negb (Ascii.eqb c "(")
                             && negb (Ascii.eqb c Py.dquote)).

(** The words of a list, separated by one space. *)
Fixpoint join_words (ws : list string) : string :=
  match ws with
  | [] => EmptyString
  | [w] => w
  | w :: ws' => w ++ " " ++ join_words ws'
  end.

(** The three replacements of [parse_candidates]. *)
Definition clean (s : string) : string :=
  Py.replace ")" EmptyString
    (Py.replace "(" EmptyString (Py.replace Py.dquote EmptyString s)).

(** *** Commands *)

(** The command [set_param] sends. *)
Definition setf_command (param : string) (value : Qc) : string :=
  "(setf +" ++ param ++ "+ " ++ format_f value ++ ")".




(** *** What a method leaves alone *)

(** From [st] to [st']: the bounds and the defaults are the same, commands
    were only appended, and entries were only taken from the front of the
    queue. *)
Definition frame (st st' : mreasoner) : Prop :=
  param_bounds st' = param_bounds st /\
  default_params st' = default_params st /\
  (exists cmds, executed_commands st' = (executed_commands st ++ cmds)%list) /\
  (exists n, resp_queue st' = drop n (resp_queue st)) /\
  (keys_ok st -> keys_ok st').


(** *** The runs of [fit] *)

Section FitRuns.

Variable minimize : nat -> list string -> list string -> M OptimizeResult.

(** The results of the runs of [idxs], successful or not, in order. *)
Fixpoint run_all (idxs : list nat) (train_x train_y : list string)
  : M (list OptimizeResult) :=
  match idxs with
  | [] => mret []
  | idx :: rest =>
      res ← minimize idx train_x train_y;
      more ← run_all rest train_x train_y;
      mret (res :: more)
  end.

End FitRuns.

(** What [fit] keeps of a run. *)
Definition kept (res : OptimizeResult) : Qc * list Qc :=
  (res_fun res, res_x res).

(** [best] is the first of the elements of [l] with the least score. *)
Definition first_least {A} (score : A -> Qc) (best : A) (l : list A) : Prop :=
  exists before after,
    l = (before ++ best :: after)%list /\
    (forall r, r ∈ before -> (score best < score r)%Qc) /\
    (forall r, r ∈ after -> (score best <= score r)%Qc).

(** A driver that answers run [idx] with the entry [idx] of a script and
    leaves the instance alone. *)
Definition scripted_minimize (script : list OptimizeResult)
           (idx : nat) (train_x train_y : list string) : M OptimizeResult :=
  mret (nth idx script
            {| res_success := false; res_fun := 1%Qc; res_x := [] |}).

Definition example_script : list OptimizeResult :=
  [ {| res_success := false; res_fun := 0%Qc; res_x := factory_vector |};
    {| res_success := true; res_fun := Q2Qc (1 # 2);
       res_x := [0%Qc; 1%Qc; 1%Qc; 0%Qc] |};
    {| res_success := true; res_fun := Q2Qc (1 # 4);
       res_x := [1%Qc; 1%Qc; 1%Qc; 0%Qc] |};
    {| res_success := true; res_fun := Q2Qc (1 # 4);
       res_x := [1%Qc; 1%Qc; 1%Qc; 1%Qc] |} ].

(** ** The grid search and the random search

    [exn] has no constructor for [TypeError], which only the end of the two
    searches can raise, in [self.set_param_vec(None)]; the result type of
    the searches carries it. *)

Inductive search_outcome : Type :=
  | SearchReturn (best_error : Qc) (best_params : list Qc)
  | SearchTypeError.

(** [np.linspace(start, stop, num)]: [num] evenly spaced values from
    [start] to [stop], both included; a negative [num] is refused. *)
Definition linspace (start stop : Qc) (num : Z) : outcome (list Qc) :=
  if (num <? 0)%Z then Exc ValueError
  else
    Ret (map (fun i => (start + Qc_of_nat i
                                * ((stop - start) / Qc_of_Z (num - 1)))%Qc)
             (seq 0 (Z.to_nat num))).

(** [np.linspace] on the two bounds [self.param_bounds[i]] and [num]. *)
Definition grid_axis (i : nat) (num : Z) : M (list Qc) :=
  st ← self;
  match param_bounds st !! i with
  | None => raise IndexError
  | Some bound => lift (linspace (fst bound) (snd bound) num)
  end.

(** The best error so far and its parameters; [None] before any update. *)
Definition incumbent : Type := Qc * option (list Qc).

(** [if error < best_error: best_error = error; best_params = params] *)
Definition keep_best (best : incumbent) (error : Qc) (values : list Qc)
  : incumbent :=
  if decide (error < fst best)%Qc then (error, Some values) else best.

(** One evaluation of a parameter vector and the update of the best. *)
Definition try_params (train_x train_y : list string)
           (best : incumbent) (values : list Qc) : M incumbent :=
  error ← _fit_fun values train_x train_y;
  mret (keep_best best error values).

(** [self.set_param_vec(best_params)] and the [return] of both searches. *)
Definition finish_search (best : incumbent) : M search_outcome :=
  match snd best with
  | None => mret SearchTypeError
  | Some values =>
      set_param_vec values;;
      mret (SearchReturn (fst best) values)
  end.

(** *** [MReasoner.fit_grid] *)
Definition fit_grid (train_x train_y : list string) (num : Z)
  : M search_outcome :=
  epsilons ← grid_axis 0 num;
  best ←
    fold_loop
      (fun best p_epsilon =>
         lambdas ← grid_axis 1 num;
         fold_loop
           (fun best p_lambda =>
              omegas ← grid_axis 2 num;
              fold_loop
                (fun best p_omega =>
                   sigmas ← grid_axis 3 num;
                   fold_loop
                     (fun best p_sigma =>
                        try_params train_x train_y best
                          [p_epsilon; p_lambda; p_omega; p_sigma])
                     best sigmas)
                best omegas)
           best lambdas)
      (Qc_of_Z 2, None) epsilons;
  finish_search best.

(** *** [MReasoner.fit_rnd] *)

Section Random.

(** [uniform k low high] is the value of the call number [k] of
    [np.random.uniform(low, high)]. *)
Variable uniform : nat -> Qc -> Qc -> Qc.

(** [np.random.uniform] on the two bounds [self.param_bounds[i]], as call
    number [k]. *)
Definition draw (k i : nat) : M Qc :=
  st ← self;
  match param_bounds st !! i with
  | None => raise IndexError
  | Some bound => mret (uniform k (fst bound) (snd bound))
  end.

Definition fit_rnd (train_x train_y : list string) (num : Z)
           (old_params : option (list Qc)) : M search_outcome :=
  best ←
    match old_params with
    | Some (v :: vs) =>
        error ← _fit_fun (v :: vs) train_x train_y;
        mret (error, Some (v :: vs))
    | _ => mret (Qc_of_Z 2, None)
    end;
  best ←
    fold_loop
      (fun best j =>
         p_epsilon ← draw (4 * j) 0;
         p_lambda ← draw (4 * j + 1) 1;
         p_omega ← draw (4 * j + 2) 2;
         p_sigma ← draw (4 * j + 3) 3;
         try_params train_x train_y best
           [p_epsilon; p_lambda; p_omega; p_sigma])
      best (seq 0 (Z.to_nat num));
  finish_search best.

End Random.

(** *** Vocabulary of the statements about the searches *)


(** The values of one axis of the grid. *)
Definition axis_values (bound : Qc * Qc) (num : Z) : list Qc :=
  map (fun i => (fst bound + Qc_of_nat i
                             * ((snd bound - fst bound) / Qc_of_Z (num - 1)))%Qc)
      (seq 0 (Z.to_nat num)).

(** The vectors of the grid in the order of the four nested loops. *)
Definition grid_points (b0 b1 b2 b3 : Qc * Qc) (num : Z) : list (list Qc) :=
  e ← axis_values b0 num; l ← axis_values b1 num;
  o ← axis_values b2 num; s ← axis_values b3 num;
  [[e; l; o; s]].

(** A draw that always gives the lower bound. *)
Definition lowest (k : nat) (low high : Qc) : Qc := low.


(** ** [source_path]

    Only the scan of the directory listing is modelled; the download that
    precedes it when the target path does not exist works on the network
    and the file system.  [names] is the result of [os.listdir] on the
    initial path, [isdir] is [os.path.isdir] and [sep] is [os.sep]. *)

(** The body of the [for] loop: the new value of [mreas_path]. *)
Definition scan_entry (isdir : string -> bool) (sep : string)
           (mreas_path name : string) : string :=
  let path := mreas_path ++ sep ++ name in
  if negb (isdir path) || Py.startswith "_" name then mreas_path
  else path ++ sep ++ "src".

Definition source_path (isdir : string -> bool) (sep : string)
           (names : list string) (mreas_path : string) : string :=
  foldl (scan_entry isdir sep) mreas_path names.

(** ** The earlier wrapper, [src/mreasoner.py]

    The earlier version of the class has the same [construct_premises].
    Its reader knows one kind of result, announced by a marker line, and
    its [query] returns the queue entry as it is.  The object is modelled
    by the lines written to the standard input of the child process and the
    queue; the parameters play no part in the methods below. *)

Module Legacy.

Record mreasoner : Type := MReasoner {
  stdin_lines : list string;
  resp_queue : list string
}.

Definition M (A : Type) : Type := mreasoner -> outcome A * mreasoner.

#[global] Instance M_ret : MRet M := fun A a st => (Ret a, st).
#[global] Instance M_bind : MBind M := fun A B k m st =>
  match m st with
  | (Ret a, st') => k a st'
  | (Exc e, st') => (Exc e, st')
  | (Block, st') => (Block, st')
  end.

Definition lift {A} (o : outcome A) : M A := fun st => (o, st).

(** [self._send(cmd)]: the line is written, followed by a newline. *)
Definition _send (cmd : string) : M unit := fun st =>
  (Ret tt, MReasoner (stdin_lines st ++ [cmd]) (resp_queue st)).

(** [self.resp_queue.get()] *)
Definition resp_queue_get : M string := fun st =>
  match resp_queue st with
  | [] => (Block, st)
  | entry :: rest => (Ret entry, MReasoner (stdin_lines st) rest)
  end.

(** *** [MReasoner.query] *)
Definition query (syllog : string) : M string :=
  prems ← lift (construct_premises syllog);
  cmd ← lift (Py.format "(what-follows? (list (parse '({})) (parse '({}))))"
                        [fst prems; snd prems]);
  cmd ← lift (Py.format "(setf resp {})" [cmd]);
  _send cmd;;
  cmd ← lift (Py.format ("(prin1 " ++ quoted "RESULT" ++ ")(prin1 {})")
                        ["(abbreviate (first resp))"]);
  _send cmd;;
  resp_queue_get.

(** *** The reader thread

    After the marker line the loop body reads two more lines: the first is
    dropped as it is, the second is decoded, stripped, freed of its double
    quotes and put on the queue. *)
Fixpoint stdout_reader (lines : list string) : list string * reader_status :=
  match lines with
  | [] => ([], Reading)
  | raw :: rest =>
      match decode_ascii raw with
      | Ret decoded =>
          let text := Py.strip decoded in
          if Py.startswith ";" text || Py.startswith "?" text
          then stdout_reader rest
          else if Py.contains "TERMINATE" text then ([], Stopped)
          else if String.eqb text (quoted "RESULT") then
            match rest with
            | _ :: raw' :: rest' =>
                match decode_ascii raw' with
                | Ret decoded' =>
                    let '(more, status) := stdout_reader rest' in
                    (Py.replace Py.dquote EmptyString (Py.strip decoded')
                       :: more, status)
                | Exc e => ([], Died e)
                | Block => ([], Reading)
                end
            | _ => ([], Reading)
            end
          else stdout_reader rest
      | Exc e => ([], Died e)
      | Block => ([], Reading)
      end
  end.

End Legacy.

(** The command of the interpretation phase of the earlier wrapper. *)
Definition legacy_interpretation_command : string :=
  "(prin1 " ++ quoted "RESULT" ++ ")(prin1 (abbreviate (first resp)))".
(** * Properties *)

(** ** The embedding on the examples of the specification *)

Example is_float_examples :
  map Py.is_float
      ["3.14"; " 4.0"; "-1e-3"; "1_000."; ".5"; "NaN"; "-Infinity"; "+.5E+1_0"]
  = repeat true 8 /\
  map Py.is_float
      [EmptyString; "."; "NIL"; "(Aac)"; "1__0"; "1_"; "e5"; "1e"; "0x10";
       "--1"; "1 2"; "in"]
  = repeat false 12.
Proof. split; vm_compute; reflexivity. Qed.

Example split_example :
  Py.split "  Aac   Ica Oca " = ["Aac"; "Ica"; "Oca"].
Proof. reflexivity. Qed.

Example construct_premises_examples :
  construct_premises "AA1" = Ret ("All A are B", "All B are C") /\
  construct_premises "OE3" = Ret ("Some A are not B", "No C are B") /\
  construct_premises EmptyString = Exc IndexError /\
  construct_premises "A" = Exc KeyError /\
  construct_premises "AX1" = Exc KeyError.
Proof. repeat split; reflexivity. Qed.

Example classify_examples :
  classify ";comment" = ([], Continue) /\
  classify "? 3.14" = ([], Continue) /\
  classify "? (Aac Ice)" = (["(Aac Ice)"], Continue) /\
  classify ("? " ++ quoted "Aac") = (["Aac"], Continue) /\
  classify "? NIL" = (["NIL"], Continue) /\
  classify "> Error: Unbound variable: X" = (["HALT"], Continue) /\
  classify (quoted "TERMINATE") = ([], Break) /\
  classify "?" = ([], Crash IndexError) /\
  classify "? T" = ([], Continue).
Proof. repeat split; vm_compute; reflexivity. Qed.

Example fresh_commands :
  executed_commands (fresh []) =
  [ "(load " ++ quoted ".mreasoner/mReasoner/src/+mReasoner.lx64fsl" ++ ")";
    "(defvar resp 0)";
    "(setf +epsilon+ 0.000000)";
    "(setf +lambda+ 4.000000)";
    "(setf +omega+ 1.000000)";
    "(setf +sigma+ 0.000000)" ].
Proof. vm_compute. reflexivity. Qed.

Example format_f_examples :
  map format_f [Q2Qc (1 # 3); Q2Qc (-5 # 2); Q2Qc (1 # 2000000);
                Q2Qc (3 # 2000000);
                Qc_of_Z 12; Q2Qc (-1 # 100000000)]
  = ["0.333333"; "-2.500000"; "0.000000"; "0.000002"; "12.000000"; "-0.000000"].
Proof. vm_compute. reflexivity. Qed.

(** ** Indexing *)

Lemma get_Some_lt (s : string) (n : nat) (c : ascii) :
  String.get n s = Some c -> (n < String.length s)%nat.
Proof.
  revert n; induction s as [|a s IH]; intros [|n] H; simpl in *;
    try discriminate; try lia.
  apply IH in H. lia.
Qed.

Lemma index_nonneg (s : string) (n : nat) (c : ascii) :
  String.get n s = Some c ->
  Py.index s (Z.of_nat n) = Ret (String c EmptyString).
Proof.
  intros H. pose proof (get_Some_lt _ _ _ H) as Hlt. unfold Py.index.
  destruct (Z.ltb_spec (Z.of_nat n) 0); [lia|].
  destruct (Z.ltb_spec (Z.of_nat n) 0); [lia|].
  destruct (Z.leb_spec (Z.of_nat (String.length s)) (Z.of_nat n)); [lia|].
  simpl. rewrite Nat2Z.id, H. reflexivity.
Qed.

Lemma index_last (s : string) (c : ascii) :
  String.get (String.length s - 1) s = Some c ->
  Py.index s (-1) = Ret (String c EmptyString).
Proof.
  intros H. pose proof (get_Some_lt _ _ _ H) as Hlt. unfold Py.index.
  change (-1 <? 0)%Z with true. cbv iota.
  destruct (Z.ltb_spec (Z.of_nat (String.length s) + -1) 0); [lia|].
  destruct (Z.leb_spec (Z.of_nat (String.length s))
                       (Z.of_nat (String.length s) + -1)); [lia|].
  simpl.
  replace (Z.to_nat (Z.of_nat (String.length s) + -1))
    with (String.length s - 1)%nat by lia.
  rewrite H. reflexivity.
Qed.

(** [construct_premises] is determined by the characters at positions 0, 1
    and at the last position. *)
Lemma construct_premises_depends_on (s1 s2 : string) (a b c : ascii) :
  String.get 0 s1 = Some a -> String.get 0 s2 = Some a ->
  String.get 1 s1 = Some b -> String.get 1 s2 = Some b ->
  String.get (String.length s1 - 1) s1 = Some c ->
  String.get (String.length s2 - 1) s2 = Some c ->
  construct_premises s1 = construct_premises s2.
Proof.
  intros A1 A2 B1 B2 C1 C2. unfold construct_premises.
  rewrite (index_nonneg s1 0 a A1 : Py.index s1 0 = _).
  rewrite (index_nonneg s2 0 a A2 : Py.index s2 0 = _).
  rewrite (index_nonneg s1 1 b B1 : Py.index s1 1 = _).
  rewrite (index_nonneg s2 1 b B2 : Py.index s2 1 = _).
  rewrite (index_last s1 c C1), (index_last s2 c C2).
  reflexivity.
Qed.

(** ** The premise encoder *)

Lemma construct_premises_syllog_id (q1 q2 : quantifier) (f : figure) :
  construct_premises (syllog_id q1 q2 f) = Ret (documented_premises q1 q2 f).
Proof. destruct q1, q2, f; reflexivity. Qed.

(** C3: on each of the 64 identifiers made of two quantifier letters and a
    figure digit, [construct_premises] returns the pair obtained by putting
    the figure's terms into the quantifiers' sentences; ['AA1'] gives
    ("All A are B", "All B are C") and ['OE3'] gives
    ("Some A are not B", "No C are B"). *)
Theorem construct_premises_documented :
  (forall q1 q2 f,
      construct_premises (syllog_id q1 q2 f)
      = Ret (documented_premises q1 q2 f)) /\
  construct_premises "AA1" = Ret ("All A are B", "All B are C") /\
  construct_premises "OE3" = Ret ("Some A are not B", "No C are B").
Proof.
  split; [|split; reflexivity].
  exact construct_premises_syllog_id.
Qed.

(** C10: two identifiers that carry the same quantifier letters at
    positions 0 and 1 and the same figure digit at their last position get
    the same premise pair, whatever their lengths and the characters in
    between. *)
Theorem construct_premises_three_positions
  (s1 s2 : string) (q1 q2 : quantifier) (f : figure) :
  String.get 0 s1 = Some (quant_letter q1) ->
  String.get 0 s2 = Some (quant_letter q1) ->
  String.get 1 s1 = Some (quant_letter q2) ->
  String.get 1 s2 = Some (quant_letter q2) ->
  String.get (String.length s1 - 1) s1 = Some (fig_digit f) ->
  String.get (String.length s2 - 1) s2 = Some (fig_digit f) ->
  construct_premises s1 = construct_premises s2 /\
  construct_premises s1 = Ret (documented_premises q1 q2 f).
Proof.
  intros A1 A2 B1 B2 C1 C2. split.
  - eapply construct_premises_depends_on; eassumption.
  - rewrite <- (construct_premises_syllog_id q1 q2 f).
    eapply construct_premises_depends_on; try eassumption;
      destruct q1, q2, f; reflexivity.
Qed.

Lemma construct_premises_three_positions_witness :
  construct_premises "AE-padding-3" = construct_premises "AE3" /\
  construct_premises "AE-padding-3" = Ret ("All A are B", "No C are B").
Proof.
  apply (construct_premises_three_positions "AE-padding-3" "AE3" QA QE F3);
    reflexivity.
Defined.

(** ** The query protocol *)

Lemma format_generation (prems : string * string) :
  (cmd ← Py.format "(what-follows? (list (parse '({})) (parse '({}))))"
                   [fst prems; snd prems];
   Py.format "(setf resp {})" [cmd])
  = Ret (generation_command prems).
Proof. reflexivity. Qed.

(** What [query] does once the premises are built: the generation command
    is sent and the call waits for the first entry. *)
Lemma query_unfold
  (syllog : string) (prems : string * string) (st : mreasoner) :
  construct_premises syllog = Ret prems ->
  query syllog st =
  match resp_queue st with
  | [] => (Block, sent [generation_command prems] [] st)
  | query_result :: rest =>
      let st1 := sent [generation_command prems] rest st in
      if Py.contains "Q-INTENSION" query_result then
        match rest with
        | [] => (Block, sent [interpretation_command] [] st1)
        | conclusion :: rest' =>
            (Ret (Py.split
                    (Py.replace ")" EmptyString
                       (Py.replace "(" EmptyString
                          (Py.replace Py.dquote EmptyString conclusion)))),
             sent [interpretation_command] rest' st1)
        end
      else if Py.contains "NULL-INTENSION" query_result
              || String.eqb query_result "NIL"
      then (Ret ["NVC"], st1)
      else (Exc (AssertionError 282), st1)
  end.
Proof.
  intros Hp. unfold query.
  unfold mbind, M_bind, lift, _send, resp_queue_get, raise, mret, M_ret, self.
  rewrite Hp.
  destruct st as [pb cmds q dp ps].
  unfold sent, generation_command, what_follows, interpretation_command.
  simpl.
  destruct q as [|query_result rest]; [reflexivity|]. 
  destruct (Py.contains "Q-INTENSION" query_result) eqn:HQ.
  - destruct rest as [|conclusion rest']; simpl.
    + reflexivity.
    + reflexivity.
  - destruct (Py.contains "NULL-INTENSION" query_result
              || String.eqb query_result "NIL"); simpl; reflexivity.
Qed.

(** Without premises no command is sent at all. *)
Lemma query_no_premises (syllog : string) (e : exn) (st : mreasoner) :
  construct_premises syllog = Exc e -> query syllog st = (Exc e, st).
Proof.
  intros Hp. unfold query.
  unfold mbind at 1, M_bind at 1, lift at 1. rewrite Hp. reflexivity.
Qed.

Lemma index_outcome (s : string) (i : Z) :
  Py.index s i = Exc IndexError \/ exists c, Py.index s i = Ret c.
Proof.
  unfold Py.index.
  destruct (_ || _)%bool; [left; reflexivity|].
  destruct (String.get _ s); [right; eexists; reflexivity|left; reflexivity].
Qed.

Lemma template_quant_outcome (k : string) :
  dict_get template_quant k = Exc KeyError \/
  exists t, dict_get template_quant k = Ret t /\
            forall a b, exists p, Py.format t [a; b] = Ret p.
Proof.
  unfold dict_get, template_quant, List.find. cbn [fst snd].
  repeat match goal with
         | |- context [String.eqb ?a k] => destruct (String.eqb a k)
         end; simpl;
    first [ left; reflexivity
          | right; eexists; split; [reflexivity|];
            intros a b; eexists; reflexivity ].
Qed.

Lemma template_fig_outcome (k : string) :
  dict_get template_fig k = Exc KeyError \/
  exists a b c d, dict_get template_fig k = Ret ([a; b], [c; d]).
Proof.
  unfold dict_get, template_fig, List.find. cbn [fst snd].
  repeat match goal with
         | |- context [String.eqb ?a k] => destruct (String.eqb a k)
         end; simpl;
    first [ left; reflexivity | right; do 4 eexists; reflexivity ].
Qed.

(** [construct_premises] returns a pair or raises one of the two lookup
    errors. *)
Lemma construct_premises_outcome (syllog : string) :
  (exists prems, construct_premises syllog = Ret prems) \/
  construct_premises syllog = Exc IndexError \/
  construct_premises syllog = Exc KeyError.
Proof.
  unfold construct_premises.
  destruct (index_outcome syllog 0) as [->|[q1 ->]]; [auto|]. simpl.
  destruct (template_quant_outcome q1) as [->|(t1 & -> & F1)]; [auto|]. simpl.
  destruct (index_outcome syllog (-1)) as [->|[f1 ->]]; [auto|]. simpl.
  destruct (template_fig_outcome f1) as [->|(a & b & c & d & ->)]; [auto|].
  simpl. destruct (F1 a b) as [p1 ->]. simpl.
  destruct (index_outcome syllog 1) as [->|[q2 ->]]; [auto|]. simpl.
  destruct (template_quant_outcome q2) as [->|(t2 & -> & F2)]; [auto|]. simpl.
  destruct (F2 c d) as [p2 ->]. simpl. left. eexists. reflexivity.
Qed.

(** C9: the [assert False] under [if 'Q-INTENSION' in query_result] inside
    the null-intension branch (line 278) is never reached: no call of
    [query], on any identifier and in any state of the instance, fails with
    that assertion.  The branch is entered only when the first test
    ['Q-INTENSION' in query_result] has been false. *)
Theorem query_null_assert_unreachable (syllog : string) (st : mreasoner) :
  raises (AssertionError 278) (fst (query syllog st)) = false.
Proof.
  destruct (construct_premises_outcome syllog) as [[prems Hp]|[Hp|Hp]].
  - rewrite (query_unfold _ _ _ Hp).
    destruct (resp_queue st) as [|query_result rest]; [reflexivity|]. simpl.
    destruct (Py.contains "Q-INTENSION" query_result).
    + destruct rest; reflexivity.
    + destruct (_ || _)%bool; reflexivity.
  - rewrite (query_no_premises _ _ _ Hp). reflexivity.
  - rewrite (query_no_premises _ _ _ Hp). reflexivity.
Qed.

(** The guard of the inner assertion is false for every response that
    passes the test of the null-intension branch after failing the test of
    the quantified-intension branch. *)
Lemma null_branch_guard_false (query_result : string) :
  (negb (Py.contains "Q-INTENSION" query_result)
   && (Py.contains "NULL-INTENSION" query_result
       || String.eqb query_result "NIL")
   && Py.contains "Q-INTENSION" query_result)%bool = false.
Proof.
  destruct (Py.contains "Q-INTENSION" query_result), (_ || _)%bool;
    reflexivity.
Qed.

(** C1, as the code has it: when the entry of the generation phase is the
    reader's ['HALT'], [query] has sent the generation command only, takes
    the entry from the queue and fails with the assertion of the
    unrecognised-response branch (line 282); no interpretation command is
    sent and no candidate list is returned. *)
Theorem query_halt_fails_as_invalid
  (syllog : string) (prems : string * string) (st : mreasoner)
  (rest : list string) :
  construct_premises syllog = Ret prems ->
  resp_queue st = "HALT" :: rest ->
  query syllog st
  = (Exc (AssertionError 282), sent [generation_command prems] rest st).
Proof.
  intros Hp Hq. rewrite (query_unfold _ _ _ Hp), Hq. reflexivity.
Qed.

Lemma query_halt_fails_as_invalid_witness :
  query "AA1" (fresh ["HALT"; "NIL"])
  = (Exc (AssertionError 282),
     sent [generation_command ("All A are B", "All B are C")] ["NIL"]
          (fresh ["HALT"; "NIL"])).
Proof.
  apply (query_halt_fails_as_invalid "AA1" _ (fresh ["HALT"; "NIL"]) ["NIL"]);
    reflexivity.
Defined.

(** C1 as stated does not hold: the reader turns an error line of the
    engine into the entry ['HALT'], and [query] then ends in the very
    failure it has for an unrecognised entry such as ['FOO'], the assertion
    of line 282; there is no outcome of its own for a halt. *)
Lemma query_halt_counterexample :
  fst (stdout_reader ["> Error: Unbound variable: FOO"]) = ["HALT"] /\
  fst (query "AA1" (fresh ["HALT"])) = Exc (AssertionError 282) /\
  fst (query "AA1" (fresh ["FOO"])) = Exc (AssertionError 282).
Proof. repeat split; vm_compute; reflexivity. Qed.

(** C5, as the code has it: when the entry of the generation phase does not
    contain ['Q-INTENSION'] and contains ['NULL-INTENSION'] or is ['NIL'],
    [query] returns the one-element candidate list [['NVC']] and the
    generation command is the only command it has sent. *)
Theorem query_null_returns_nvc
  (syllog : string) (prems : string * string) (st : mreasoner)
  (query_result : string) (rest : list string) :
  construct_premises syllog = Ret prems ->
  resp_queue st = query_result :: rest ->
  Py.contains "Q-INTENSION" query_result = false ->
  Py.contains "NULL-INTENSION" query_result = true \/ query_result = "NIL" ->
  query syllog st
  = (Ret ["NVC"], sent [generation_command prems] rest st).
Proof.
  intros Hp Hq HQ HN. rewrite (query_unfold _ _ _ Hp), Hq. cbv zeta.
  rewrite HQ. destruct HN as [->| ->]; [reflexivity|].
  rewrite orb_true_r. reflexivity.
Qed.

Lemma query_null_returns_nvc_witness :
  query "EO2" (fresh ["(#<NULL-INTENSION #x3020012F>)"])
  = (Ret ["NVC"],
     sent [generation_command ("No B are A", "Some C are not B")] []
          (fresh ["(#<NULL-INTENSION #x3020012F>)"])) /\
  query "EO2" (fresh ["NIL"])
  = (Ret ["NVC"],
     sent [generation_command ("No B are A", "Some C are not B")] []
          (fresh ["NIL"])).
Proof.
  split.
  - apply (query_null_returns_nvc
             "EO2" _ _ "(#<NULL-INTENSION #x3020012F>)" []);
      [reflexivity | reflexivity | reflexivity | left; reflexivity].
  - apply (query_null_returns_nvc "EO2" _ _ "NIL" []);
      [reflexivity | reflexivity | reflexivity | right; reflexivity].
Defined.

(** C5 as stated does not hold: an entry that contains ['NULL-INTENSION']
    next to ['Q-INTENSION'] takes the first branch, so the interpretation
    command is sent and the candidates come from the second entry. *)
Lemma query_null_counterexample :
  Py.contains "NULL-INTENSION" mixed_entry = true /\
  fst (query "AA1" (fresh [mixed_entry; "(" ++ quoted "Aac" ++ ")"]))
  = Ret ["Aac"] /\
  executed_commands
    (snd (query "AA1" (fresh [mixed_entry; "(" ++ quoted "Aac" ++ ")"])))
  = (executed_commands (fresh [])
     ++ [generation_command ("All A are B", "All B are C");
         interpretation_command])%list.
Proof. repeat split; vm_compute; reflexivity. Qed.

(** ** The parameter store *)

Lemma set_param_unfold (param : string) (value : Qc) (st : mreasoner) :
  set_param param value st =
  match params st !! param with
  | None => (Exc ValueError, st)
  | Some _ =>
      (Ret tt,
       MReasoner (param_bounds st)
                 (executed_commands st
                  ++ ["(setf +" ++ param ++ "+ " ++ format_f value ++ ")"])
                 (resp_queue st) (default_params st)
                 (<[param := value]> (params st)))
  end.
Proof.
  unfold set_param, mbind, M_bind, self, raise, params_setitem, _send.
  destruct (decide (params st !! param = None)) as [->|Hne]; [reflexivity|].
  destruct (params st !! param); [reflexivity|congruence].
Qed.

Lemma fresh_keys_ok (reader_entries : list string) :
  keys_ok (fresh reader_entries).
Proof.
  intros name. unfold fresh, __init__.
  change (params _) with
    (<["sigma" := 0%Qc]> (<["omega" := 1%Qc]> (<["lambda" := Qc_of_Z 4]>
      (<["epsilon" := 0%Qc]>
         (list_to_map factory_defaults : gmap string Qc))))).
  unfold factory_defaults, param_names. simpl.
  rewrite !lookup_insert_is_Some, lookup_empty, is_Some_alt.
  rewrite !elem_of_cons, elem_of_nil. split.
  - intros H. repeat (destruct H as [<-|[_ H]]; [tauto|]). destruct H.
  - intros H.
    destruct (decide ("sigma" = name)); [auto|right; split; [assumption|]].
    destruct (decide ("omega" = name)); [auto|right; split; [assumption|]].
    destruct (decide ("lambda" = name)); [auto|right; split; [assumption|]].
    destruct (decide ("epsilon" = name)); [auto|].
    exfalso. intuition congruence.
Qed.

Lemma set_param_keys_ok (param : string) (value : Qc) (st : mreasoner) :
  keys_ok st -> keys_ok (snd (set_param param value st)).
Proof.
  intros Hk name. rewrite set_param_unfold.
  destruct (params st !! param) eqn:Hp; simpl; [|apply Hk].
  rewrite lookup_insert_is_Some. rewrite <- (Hk name).
  split; [intros [<-|[_ H]]; eauto|]. intros H.
  destruct (decide (param = name)); auto.
Qed.

Lemma for_each_set_param_returns (l : list (string * Qc)) :
  forall st,
    keys_ok st -> (forall nv, nv ∈ l -> fst nv ∈ param_names) ->
    exists st',
      for_each (fun nv => set_param (fst nv) (snd nv)) l st = (Ret tt, st')
      /\ keys_ok st'.
Proof.
  induction l as [|nv l IH]; intros st Hk Hin.
  - exists st. split; [reflexivity|exact Hk].
  - cbn [for_each]. unfold mbind at 1, M_bind at 1.
    pose proof (set_param_keys_ok (fst nv) (snd nv) st Hk) as Hk'.
    assert (Hn : is_Some (params st !! fst nv))
      by (apply Hk, Hin, list_elem_of_here).
    rewrite set_param_unfold in Hk' |- *. destruct Hn as [v Hv].
    rewrite Hv in Hk' |- *. apply IH; [exact Hk'|].
    intros nv' H. apply Hin. apply list_elem_of_further, H.
Qed.

(** On an instance with the four keys [set_param_vec] always returns. *)
Lemma set_param_vec_returns (values : list Qc) (st : mreasoner) :
  keys_ok st ->
  exists st', set_param_vec values st = (Ret tt, st') /\ keys_ok st'.
Proof.
  intros Hk. apply for_each_set_param_returns; [exact Hk|].
  intros [name value] H. apply elem_of_zip_l in H. exact H.
Qed.

(** C8: [set_param] with a name outside the four parameter names raises
    [ValueError] and leaves the instance as it was: the stored values are
    unchanged and nothing is sent.  With one of the four names every value
    is stored and sent, whatever the bounds of the parameter. *)
Theorem set_param_unknown_name
  (st : mreasoner) (name : string) (value : Qc) :
  keys_ok st ->
  (name ∉ param_names -> set_param name value st = (Exc ValueError, st)) /\
  (name ∈ param_names ->
   set_param name value st
   = (Ret tt,
      MReasoner (param_bounds st)
                (executed_commands st
                 ++ ["(setf +" ++ name ++ "+ " ++ format_f value ++ ")"])
                (resp_queue st) (default_params st)
                (<[name := value]> (params st)))).
Proof.
  intros Hk. rewrite set_param_unfold. split; intros Hn.
  - destruct (params st !! name) eqn:Hp; [|reflexivity].
    exfalso. apply Hn, Hk. eauto.
  - apply Hk in Hn as [v ->]. reflexivity.
Qed.

Lemma set_param_unknown_name_witness :
  set_param "alpha" (Qc_of_Z 1) (fresh []) = (Exc ValueError, fresh []) /\
  executed_commands (snd (set_param "lambda" (Qc_of_Z 100) (fresh [])))
  = (executed_commands (fresh []) ++ ["(setf +lambda+ 100.000000)"])%list.
Proof.
  destruct (set_param_unknown_name (fresh []) "alpha" (Qc_of_Z 1)
              (fresh_keys_ok [])) as [Hbad _].
  destruct (set_param_unknown_name (fresh []) "lambda" (Qc_of_Z 100)
              (fresh_keys_ok [])) as [_ Hgood].
  split.
  - apply Hbad. unfold param_names. rewrite !elem_of_cons, elem_of_nil.
    intros [?|[?|[?|[?|[]]]]]; congruence.
  - rewrite Hgood; [reflexivity|]. unfold param_names.
    rewrite !elem_of_cons. auto.
Defined.

(** ** The fitting objective *)

Lemma fold_loop_scores (pairs : list (string * string)) :
  forall (acc : Qc) (st st' : mreasoner) (preds : list (list string)),
    run_queries (pairs.*1) st = (Ret preds, st') ->
    fold_loop (fun score tr => pred ← query (fst tr);
                               mret (score + score_of (snd tr) pred)%Qc)
              acc pairs st
    = (Ret (acc + total_score (pairs.*2) preds)%Qc, st').
Proof.
  induction pairs as [|[task resp] pairs IH]; intros acc st st' preds Hrun.
  - simpl in Hrun. unfold mret, M_ret in Hrun. simplify_eq.
    unfold total_score. simpl. rewrite Qcplus_0_r. reflexivity.
  - simpl in Hrun. unfold mbind at 1, M_bind at 1 in Hrun.
    simpl. unfold mbind at 1, M_bind at 1. unfold mbind at 1, M_bind at 1.
    destruct (query task st) as [[pred|e|] st1]; try discriminate Hrun.
    unfold mbind at 1, M_bind at 1 in Hrun.
    destruct (run_queries _ st1) as [[preds'|e|] st2] eqn:Hrest;
      try discriminate Hrun.
    unfold mret, M_ret in Hrun. simplify_eq.
    unfold mret at 1, M_ret at 1.
    rewrite (IH _ _ _ _ Hrest). unfold total_score. simpl.
    rewrite Qcplus_assoc. reflexivity.
Qed.

Lemma Qc_of_nat_S (n : nat) : Qc_of_nat (S n) = (1 + Qc_of_nat n)%Qc.
Proof.
  unfold Qc_of_nat. rewrite Nat2Z.inj_succ, <- Z.add_1_l, Z2Qc_inj_add.
  rewrite Z2Qc_inj_1. reflexivity.
Qed.


Lemma score_of_sole_right (y : string) : score_of y [y] = 1%Qc.
Proof.
  unfold score_of. rewrite bool_decide_eq_true_2 by apply list_elem_of_here.
  apply Qc_is_canon. reflexivity.
Qed.


Lemma total_score_all_right (resps : list string) (preds : list (list string)) :
  Forall2 (fun y p => p = [y]) resps preds ->
  total_score resps preds = Qc_of_nat (length resps).
Proof.
  induction 1 as [|y p resps preds -> _ IH]; [apply Qc_is_canon; reflexivity|].
  unfold total_score in *. cbn [zip_with foldr length].
  rewrite IH, score_of_sole_right, Qc_of_nat_S. reflexivity.
Qed.




(** ** The multi-start driver *)

Lemma fresh_factory_ok (reader_entries : list string) :
  factory_ok (fresh reader_entries).
Proof. split; [reflexivity|apply fresh_keys_ok]. Qed.

Lemma set_param_known (param : string) (value v : Qc) (st : mreasoner) :
  params st !! param = Some v ->
  set_param param value st
  = (Ret tt,
     MReasoner (param_bounds st)
               (executed_commands st
                ++ ["(setf +" ++ param ++ "+ " ++ format_f value ++ ")"])
               (resp_queue st) (default_params st)
               (<[param := value]> (params st))).
Proof. intros H. rewrite set_param_unfold, H. reflexivity. Qed.

Lemma factory_map_reset (ps : gmap string Qc) :
  (forall name, is_Some (ps !! name) <-> name ∈ param_names) ->
  <["sigma" := 0%Qc]> (<["omega" := 1%Qc]> (<["lambda" := Qc_of_Z 4]>
    (<["epsilon" := 0%Qc]> ps)))
  = list_to_map factory_defaults.
Proof.
  intros Hk. apply map_eq. intros k. unfold factory_defaults. simpl.
  rewrite !lookup_insert, lookup_empty.
  repeat case_decide; subst; try reflexivity; try congruence.
  apply eq_None_not_Some. rewrite Hk. unfold param_names.
  rewrite !elem_of_cons, elem_of_nil. intuition congruence.
Qed.

Lemma reset_to_defaults (st : mreasoner) :
  keys_ok st ->
  for_each (fun pv => set_param (fst pv) (snd pv)) factory_defaults st
  = (Ret tt,
     MReasoner (param_bounds st) (executed_commands st ++ reset_commands)
               (resp_queue st) (default_params st)
               (list_to_map factory_defaults)).
Proof.
  intros Hk. unfold factory_defaults at 1. cbn [for_each fst snd].
  destruct (proj2 (Hk "epsilon")) as [v1 H1];
    [unfold param_names; rewrite !elem_of_cons; auto|].
  destruct (proj2 (Hk "lambda")) as [v2 H2];
    [unfold param_names; rewrite !elem_of_cons; auto|].
  destruct (proj2 (Hk "omega")) as [v3 H3];
    [unfold param_names; rewrite !elem_of_cons; auto|].
  destruct (proj2 (Hk "sigma")) as [v4 H4];
    [unfold param_names; rewrite !elem_of_cons; auto|].
  unfold mbind at 1, M_bind at 1.
  rewrite (set_param_known _ _ _ _ H1).
  unfold mbind at 1, M_bind at 1.
  erewrite set_param_known
    by (cbn [params]; rewrite lookup_insert_ne by discriminate; exact H2).
  unfold mbind at 1, M_bind at 1.
  erewrite set_param_known
    by (cbn [params]; rewrite !lookup_insert_ne by discriminate; exact H3).
  unfold mbind at 1, M_bind at 1.
  erewrite set_param_known
    by (cbn [params]; rewrite !lookup_insert_ne by discriminate; exact H4).
  cbn [params executed_commands param_bounds resp_queue default_params].
  rewrite (factory_map_reset _ Hk). rewrite <- !app_assoc.
  reflexivity.
Qed.

Section FitProperties.

Variable minimize : nat -> list string -> list string -> M OptimizeResult.

Lemma fit_runs_all_fail (idxs : list nat) (train_x train_y : list string) :
  forall (results : list (Qc * list Qc)) (st st_end : mreasoner),
    all_runs_fail minimize idxs train_x train_y st st_end ->
    fit_runs minimize idxs train_x train_y results st = (Ret results, st_end).
Proof.
  induction idxs as [|idx rest IH]; intros results st st_end Hall.
  - simpl in Hall. subst. reflexivity.
  - destruct Hall as (res & st' & Hmin & Hfail & Hrest). simpl.
    unfold mbind at 1, M_bind at 1. rewrite Hmin, Hfail. apply IH, Hrest.
Qed.

(** When at least one run was asked for and every run fails, [fit] puts
    the four parameters back on the factory defaults, in the instance and in
    the engine, and returns the score [-1] with the default vector in the
    order epsilon, lambda, omega, sigma.  A negative [num_fits] starts no
    run and ends the same way. *)
Lemma fit_all_failed_resets
  (train_x train_y : list string) (num_fits : Z) (st st_end : mreasoner) :
  num_fits <> 0%Z ->
  all_runs_fail minimize (seq 0 (Z.to_nat num_fits)) train_x train_y
                st st_end ->
  factory_ok st_end ->
  fit minimize train_x train_y num_fits st
  = (Ret ((- 1)%Qc, factory_vector),
     MReasoner (param_bounds st_end)
               (executed_commands st_end ++ reset_commands)
               (resp_queue st_end) factory_defaults
               (list_to_map factory_defaults)).
Proof.
  intros Hnz Hall [Hdef Hk]. unfold fit.
  unfold mbind at 1, M_bind at 1.
  rewrite (fit_runs_all_fail _ _ _ [] _ _ Hall).
  unfold mbind at 1, M_bind at 1, self at 1.
  replace (Z.of_nat (length (@nil (Qc * list Qc))) =? num_fits)%Z with false
    by (symmetry; apply Z.eqb_neq; simpl; lia).
  rewrite bool_decide_eq_true_2 by reflexivity. cbn [negb andb].
  rewrite Hdef. unfold mbind at 1, M_bind at 1.
  rewrite (reset_to_defaults _ Hk), Hdef. reflexivity.
Qed.

(** C7, at [num_fits = 0]: no run is made, so every run of the invocation
    has failed, and [fit] raises [IndexError] on the empty result list; it
    neither resets the parameters nor returns the failure score. *)
Theorem fit_zero_runs_index_error
  (train_x train_y : list string) (st : mreasoner) :
  fit minimize train_x train_y 0 st = (Exc IndexError, st).
Proof. reflexivity. Qed.

End FitProperties.

Example fit_all_failed_examples :
  fst (fit failing_minimize ["AA1"] ["Aac"] 10 (fresh []))
  = Ret ((- 1)%Qc, factory_vector) /\
  fst (fit failing_minimize ["AA1"] ["Aac"] (-3) (fresh []))
  = Ret ((- 1)%Qc, factory_vector) /\
  fst (fit failing_minimize ["AA1"] ["Aac"] 0 (fresh [])) = Exc IndexError.
Proof. repeat split; vm_compute; reflexivity. Qed.

(** ** The characters of a line *)

Lemma all_chars_mono (P Q : ascii -> bool) (s : string) :
  (forall c, P c = true -> Q c = true) ->
  all_chars P s = true -> all_chars Q s = true.
Proof.
  intros HPQ. induction s as [|c s IH]; simpl; [reflexivity|].
  rewrite !andb_true_iff. intros [Hc Hs]. auto.
Qed.

Lemma all_chars_get (P : ascii -> bool) (s : string) (k : nat) (ch : ascii) :
  all_chars P s = true -> String.get k s = Some ch -> P ch = true.
Proof.
  revert k. induction s as [|c s IH]; intros k; simpl; [discriminate|].
  rewrite andb_true_iff. intros [Hc Hs]. destruct k as [|k].
  - intros [= <-]. exact Hc.
  - apply IH, Hs.
Qed.

Lemma prefix_get (n s : string) (k : nat) (ch : ascii) :
  String.prefix n s = true -> String.get k n = Some ch ->
  String.get k s = Some ch.
Proof.
  revert s k. induction n as [|a n IH]; intros s k Hp Hk.
  - destruct k; discriminate Hk.
  - destruct s as [|b s]; [discriminate Hp|]. simpl in Hp.
    destruct (ascii_dec a b) as [->|]; [|discriminate Hp].
    destruct k as [|k]; simpl in *; [exact Hk|]. exact (IH _ _ Hp Hk).
Qed.

(** An occurrence of [needle] puts each of its characters into [s]. *)
Lemma contains_get (needle s : string) :
  Py.contains needle s = true ->
  exists i, forall k ch,
      String.get k needle = Some ch -> String.get (i + k) s = Some ch.
Proof.
  induction s as [|c s IH]; cbn [Py.contains]; rewrite orb_true_iff.
  - intros [Hp|]; [|discriminate]. exists 0. intros k ch.
    apply (prefix_get _ _ _ _ Hp).
  - intros [Hp|Hc].
    + exists 0. intros k ch. apply (prefix_get _ (String c s) _ _ Hp).
    + destruct (IH Hc) as [i Hi]. exists (S i). intros k ch Hk.
      simpl. apply Hi, Hk.
Qed.

(** A needle with a character outside [P] beyond its second position does
    not occur in a line whose characters from the third on are in [P]. *)
Lemma contains_excluded
  (P : ascii -> bool) (needle : string) (k : nat) (ch a b : ascii)
  (s : string) :
  String.get (S (S k)) needle = Some ch -> P ch = false ->
  all_chars P s = true ->
  Py.contains needle (String a (String b s)) = false.
Proof.
  intros Hk HP Hs. destruct (Py.contains _ _) eqn:Hc; [|reflexivity].
  destruct (contains_get _ _ Hc) as [i Hi]. specialize (Hi _ _ Hk).
  replace (i + S (S k)) with (S (S (i + k))) in Hi by lia. simpl in Hi.
  rewrite (all_chars_get _ _ _ _ Hs Hi) in HP. discriminate.
Qed.

Section FloatChars.

Variable P : ascii -> bool.
Hypothesis P_space : forall c, Py.isspace c = true -> P c = true.
Hypothesis P_digit : forall c, Py.isdigit c = true -> P c = true.
Hypothesis P_sign : forall c, Py.is_sign c = true -> P c = true.
Hypothesis P_dot : P "." = true.
Hypothesis P_underscore : P "_" = true.
Hypothesis P_exp : forall c, Ascii.eqb (Py.lower c) "e" = true -> P c = true.

Lemma all_chars_lstrip (s : string) :
  all_chars P (Py.lstrip s) = true -> all_chars P s = true.
Proof.
  induction s as [|c s IH]; simpl; [reflexivity|].
  destruct (Py.isspace c) eqn:Hc; [|trivial].
  intros H. rewrite (P_space _ Hc), (IH H). reflexivity.
Qed.

Lemma all_chars_rstrip (s : string) :
  all_chars P (Py.rstrip s) = true -> all_chars P s = true.
Proof.
  induction s as [|c s IH]; simpl; [reflexivity|].
  destruct (Py.isspace c) eqn:Hc; simpl.
  - destruct (Py.rstrip s) eqn:Hr; simpl.
    + intros _. rewrite (P_space _ Hc), IH; reflexivity.
    + rewrite !andb_true_iff. intros [H1 H2]. split; [exact H1|].
      apply IH. simpl. rewrite andb_true_iff. exact H2.
  - rewrite !andb_true_iff. intros [H1 H2]. auto.
Qed.

Lemma all_chars_skip_sign (s : string) :
  all_chars P (Py.skip_sign s) = true -> all_chars P s = true.
Proof.
  destruct s as [|c s]; simpl; [reflexivity|].
  destruct (Py.is_sign c) eqn:Hc; [|trivial].
  intros H. rewrite (P_sign _ Hc), H. reflexivity.
Qed.

Lemma all_chars_digits_tail (n : nat) :
  forall s, String.length s <= n ->
            all_chars P (Py.digits_tail s) = true -> all_chars P s = true.
Proof.
  induction n as [|n IH]; intros s Hlen.
  - destruct s; [reflexivity|simpl in Hlen; lia].
  - destruct s as [|c s]; [reflexivity|]. simpl in Hlen. simpl.
    destruct (Py.isdigit c) eqn:Hd.
    + intros H. rewrite (P_digit _ Hd), IH; [reflexivity|lia|exact H].
    + destruct (Ascii.eqb c "_") eqn:Hu; [|trivial].
      destruct s as [|d s]; [trivial|].
      destruct (Py.isdigit d) eqn:Hd'; [|trivial].
      intros H. apply Ascii.eqb_eq in Hu. subst c.
      rewrite P_underscore. simpl. rewrite (P_digit _ Hd'), IH;
        [reflexivity|simpl in Hlen; lia|exact H].
Qed.

Lemma all_chars_digitpart (s r : string) :
  Py.digitpart s = Some r -> all_chars P r = true -> all_chars P s = true.
Proof.
  destruct s as [|c s]; simpl; [discriminate|].
  destruct (Py.isdigit c) eqn:Hd; [|discriminate].
  intros [= <-] H. rewrite (P_digit _ Hd). simpl.
  apply (all_chars_digits_tail (String.length s)); [lia|exact H].
Qed.

Lemma is_empty_all_chars (r : string) :
  Py.is_empty r = true -> all_chars P r = true.
Proof. destruct r; [reflexivity|discriminate]. Qed.

Lemma all_chars_exponent (s : string) :
  Py.exponent_ok s = true -> all_chars P s = true.
Proof.
  destruct s as [|c s]; simpl; [reflexivity|].
  destruct (Ascii.eqb (Py.lower c) "e") eqn:He; [|discriminate].
  destruct (Py.digitpart (Py.skip_sign s)) as [r|] eqn:Hd; [|discriminate].
  intros Hr. rewrite (P_exp _ He). simpl.
  apply all_chars_skip_sign, (all_chars_digitpart _ _ Hd),
    is_empty_all_chars, Hr.
Qed.

Lemma all_chars_number (s : string) :
  Py.number_ok s = true -> all_chars P s = true.
Proof.
  unfold Py.number_ok.
  destruct (Py.digitpart s) as [r|] eqn:Hd.
  - intros H. apply (all_chars_digitpart _ _ Hd).
    destruct r as [|c r]; [reflexivity|].
    destruct (Ascii.eqb c ".") eqn:Hc.
    + apply Ascii.eqb_eq in Hc. subst c. simpl. rewrite P_dot. simpl.
      destruct (Py.digitpart r) as [r'|] eqn:Hd'.
      * apply (all_chars_digitpart _ _ Hd'), all_chars_exponent, H.
      * apply all_chars_exponent, H.
    + apply all_chars_exponent.
      destruct c as [[] [] [] [] [] [] [] []]; try exact H; discriminate.
  - destruct s as [|c s]; [discriminate|].
    destruct (Ascii.eqb c ".") eqn:Hc.
    + apply Ascii.eqb_eq in Hc. subst c.
      destruct (Py.digitpart s) as [r'|] eqn:Hd'; [|discriminate].
      intros H. simpl. rewrite P_dot. simpl.
      apply (all_chars_digitpart _ _ Hd'), all_chars_exponent, H.
    + destruct c as [[] [] [] [] [] [] [] []]; discriminate.
Qed.

End FloatChars.

#[local] Arguments Py.lower : simpl never.
#[local] Arguments Py.isspace : simpl never.
#[local] Arguments Py.isdigit : simpl never.
#[local] Arguments Py.is_sign : simpl never.

Lemma lower_str_mem (s t : string) :
  String.eqb (Py.lower_str s) t = true ->
  all_chars (fun c => mem (Py.lower c) t) s = true.
Proof.
  revert t. induction s as [|c s IH]; intros t; simpl; [reflexivity|].
  destruct t as [|d t]; [discriminate|]. simpl.
  destruct (Ascii.eqb (Py.lower c) d) eqn:Hc; [|discriminate].
  intros Ht. unfold mem at 1. simpl. rewrite Hc. simpl.
  apply (all_chars_mono (fun c => mem (Py.lower c) t)); [|apply IH, Ht].
  intros c' Hc'. unfold mem in *. simpl. rewrite Hc'. apply orb_true_r.
Qed.

Lemma float_char_letters (t : string) (c : ascii) :
  t = "inf" \/ t = "infinity" \/ t = "nan" ->
  mem (Py.lower c) t = true -> float_char c = true.
Proof.
  intros Ht H. unfold float_char.
  enough (mem (Py.lower c) "infatye" = true) as -> by apply orb_true_r.
  revert H. generalize (Py.lower c). intros x. unfold mem.
  destruct Ht as [->|[->| ->]]; simpl;
    destruct (Ascii.eqb x "i"), (Ascii.eqb x "n"), (Ascii.eqb x "f"),
      (Ascii.eqb x "a"), (Ascii.eqb x "t"), (Ascii.eqb x "y"),
      (Ascii.eqb x "e"); simpl; congruence.
Qed.

(** A text that [float] accepts is made of [float_char]s only. *)
Lemma is_float_chars (s : string) :
  Py.is_float s = true -> all_chars float_char s = true.
Proof.
  assert (Hspace : forall c, Py.isspace c = true -> float_char c = true).
  { intros c H. unfold float_char. rewrite H. reflexivity. }
  assert (Hdigit : forall c, Py.isdigit c = true -> float_char c = true).
  { intros c H. unfold float_char. rewrite H. apply orb_true_iff. left.
    apply orb_true_iff. left. apply orb_true_iff. left. apply orb_true_r. }
  assert (Hsign : forall c, Py.is_sign c = true -> float_char c = true).
  { intros c H. unfold float_char. rewrite H. apply orb_true_iff. left.
    apply orb_true_iff. left. apply orb_true_r. }
  assert (Hexp : forall c, Ascii.eqb (Py.lower c) "e" = true ->
                           float_char c = true).
  { intros c H. unfold float_char, mem. simpl. rewrite H.
    rewrite !orb_true_r. reflexivity. }
  unfold Py.is_float, Py.strip. rewrite !orb_true_iff. intros H.
  apply all_chars_lstrip, all_chars_rstrip, all_chars_skip_sign;
    try assumption.
  destruct H as [[[H|H]|H]|H].
  - eapply all_chars_mono; [|apply (lower_str_mem _ _ H)].
    intros c. apply float_char_letters. auto.
  - eapply all_chars_mono; [|apply (lower_str_mem _ _ H)].
    intros c. apply float_char_letters. auto.
  - eapply all_chars_mono; [|apply (lower_str_mem _ _ H)].
    intros c. apply float_char_letters. auto.
  - apply (all_chars_number float_char); try assumption; reflexivity.
Qed.

Lemma is_float_first_char (c : ascii) (s : string) :
  float_char c = false -> Py.is_float (String c s) = false.
Proof.
  intros Hc. destruct (Py.is_float (String c s)) eqn:H; [|reflexivity].
  apply is_float_chars in H. simpl in H. rewrite Hc in H. discriminate.
Qed.

Lemma get_append_last (s : string) (c : ascii) :
  String.get (String.length s) (s ++ String c EmptyString) = Some c.
Proof. induction s as [|a s IH]; simpl; [reflexivity|exact IH]. Qed.

Lemma length_append_one (s : string) (c : ascii) :
  String.length (s ++ String c EmptyString) = S (String.length s).
Proof.
  induction s as [|a s IH]; simpl; [reflexivity|]. rewrite IH. reflexivity.
Qed.

(** The first and the last character of a payload between [a] and [b]. *)
Lemma index_wrapped (a b : ascii) (mid : string) :
  let payload := String a (mid ++ String b EmptyString) in
  Py.index payload 0 = Ret (String a EmptyString) /\
  Py.index payload (-1) = Ret (String b EmptyString).
Proof.
  intros payload. split.
  - apply (index_nonneg payload 0). reflexivity.
  - apply index_last. unfold payload. cbn [String.length].
    rewrite length_append_one.
    replace (S (S (String.length mid)) - 1) with (S (String.length mid))
      by lia.
    cbn [String.get]. apply get_append_last.
Qed.

(** ** The reader's classification *)

Lemma classify_comment (text : string) :
  Py.startswith ";" text = true -> classify text = ([], Continue).
Proof. intros H. unfold classify. rewrite H. reflexivity. Qed.

Lemma classify_terminate (text : string) :
  Py.startswith ";" text = false -> Py.contains "TERMINATE" text = true ->
  classify text = ([], Break).
Proof. intros H1 H2. unfold classify. rewrite H1, H2. reflexivity. Qed.

Lemma classify_error (text : string) :
  Py.startswith ";" text = false -> Py.contains "TERMINATE" text = false ->
  Py.contains "Error:" text = true ->
  exists more, fst (classify text) = "HALT" :: more.
Proof.
  intros H1 H2 H3. unfold classify. rewrite H1, H2, H3, orb_true_r.
  repeat case_match; simpl; eauto.
Qed.

(** The entries of one line: never more than two, and at most one when the
    line holds none of the two error texts. *)
Lemma classify_puts_bound (text : string) :
  length (fst (classify text)) <= 2 /\
  (Py.contains "While executing:" text || Py.contains "Error:" text = false ->
   length (fst (classify text)) <= 1).
Proof.
  unfold classify.
  destruct (Py.contains "While executing:" text || Py.contains "Error:" text);
    repeat case_match; simpl; split; intros; try discriminate; lia.
Qed.

(** What a result line without the termination keyword and without a
    float payload puts on the queue behind a possible ['HALT']. *)
Lemma classify_result_line (c : ascii) (payload first last : string) :
  Py.contains "TERMINATE" (result_line c payload) = false ->
  Py.is_float payload = false ->
  Py.index payload 0 = Ret first -> Py.index payload (-1) = Ret last ->
  exists halt,
    classify (result_line c payload) =
    if String.eqb first "(" && String.eqb last ")" then
      ((halt ++ [payload])%list, Continue)
    else if String.eqb first dquote_str && String.eqb last dquote_str then
      ((halt ++ [Py.replace Py.dquote EmptyString payload])%list, Continue)
    else if String.eqb payload "NIL" then ((halt ++ [payload])%list, Continue)
    else (halt, Continue).
Proof.
  intros HT HF H0 H1. unfold classify. rewrite HT.
  change (Py.startswith ";" (result_line c payload)) with false.
  change (Py.startswith "?" (result_line c payload)) with true.
  change (Py.slice_from 2 (result_line c payload)) with payload.
  cbv iota. rewrite HF, H0, H1. eexists. reflexivity.
Qed.

Lemma classify_float (c : ascii) (payload : string) :
  Py.is_float payload = true ->
  classify (result_line c payload) = ([], Continue).
Proof.
  intros HF. pose proof (is_float_chars _ HF) as Hchars. unfold classify.
  change (Py.startswith ";" (result_line c payload)) with false.
  change (Py.startswith "?" (result_line c payload)) with true.
  change (Py.slice_from 2 (result_line c payload)) with payload.
  unfold result_line.
  rewrite (contains_excluded float_char "TERMINATE" 0 "R" _ _ _
             eq_refl eq_refl Hchars).
  rewrite (contains_excluded float_char "While executing:" 13 ":" _ _ _
             eq_refl eq_refl Hchars).
  rewrite (contains_excluded float_char "Error:" 3 ":" _ _ _
             eq_refl eq_refl Hchars).
  cbv iota. simpl orb. cbv iota. rewrite HF. reflexivity.
Qed.

Lemma classify_nil (c : ascii) :
  classify (result_line c "NIL") = (["NIL"], Continue).
Proof.
  assert (Hchars : all_chars (fun ch => mem ch "NIL") "NIL" = true)
    by reflexivity.
  unfold classify.
  change (Py.startswith ";" (result_line c "NIL")) with false.
  change (Py.startswith "?" (result_line c "NIL")) with true.
  change (Py.slice_from 2 (result_line c "NIL")) with "NIL".
  unfold result_line.
  rewrite (contains_excluded _ "TERMINATE" 0 "R" _ _ _ eq_refl eq_refl Hchars).
  rewrite (contains_excluded _ "While executing:" 13 ":" _ _ _
             eq_refl eq_refl Hchars).
  rewrite (contains_excluded _ "Error:" 3 ":" _ _ _ eq_refl eq_refl Hchars).
  reflexivity.
Qed.

Lemma replace_append_old (old : ascii) (s : string) :
  Py.replace old EmptyString (s ++ String old EmptyString)
  = Py.replace old EmptyString s.
Proof.
  induction s as [|a s IH]; simpl.
  - rewrite Ascii.eqb_refl. reflexivity.
  - destruct (Ascii.eqb a old); simpl; rewrite IH; reflexivity.
Qed.

Lemma replace_dquote_quoted (mid : string) :
  Py.replace Py.dquote EmptyString (quoted mid)
  = Py.replace Py.dquote EmptyString mid.
Proof.
  unfold quoted. cbn [Py.replace]. rewrite Ascii.eqb_refl.
  cbn [String.append]. apply replace_append_old.
Qed.

Lemma replace_absent (old : ascii) (s : string) :
  all_chars (fun c => negb (Ascii.eqb c old)) s = true ->
  Py.replace old EmptyString s = s.
Proof.
  induction s as [|a s IH]; simpl; [reflexivity|].
  rewrite andb_true_iff. intros [Ha Hs].
  destruct (Ascii.eqb a old); [discriminate|]. rewrite (IH Hs). reflexivity.
Qed.

Lemma classify_parenthesized (c : ascii) (mid : string) :
  let payload := String "(" (mid ++ ")") in
  Py.contains "TERMINATE" (result_line c payload) = false ->
  last (fst (classify (result_line c payload))) = Some payload /\
  snd (classify (result_line c payload)) = Continue.
Proof.
  intros payload HT.
  destruct (index_wrapped "(" ")" mid) as [H0 H1].
  destruct (classify_result_line c payload _ _ HT
              (is_float_first_char "(" _ eq_refl) H0 H1) as [halt ->].
  simpl. rewrite last_snoc. split; reflexivity.
Qed.

Lemma classify_quoted (c : ascii) (mid : string) :
  Py.contains "TERMINATE" (result_line c (quoted mid)) = false ->
  last (fst (classify (result_line c (quoted mid))))
  = Some (Py.replace Py.dquote EmptyString mid) /\
  snd (classify (result_line c (quoted mid))) = Continue.
Proof.
  intros HT.
  destruct (index_wrapped Py.dquote Py.dquote mid) as [H0 H1].
  destruct (classify_result_line c (quoted mid) _ _ HT
              (is_float_first_char Py.dquote _ eq_refl) H0 H1) as [halt ->].
  cbn -[Py.replace quoted]. rewrite last_snoc, replace_dquote_quoted.
  split; reflexivity.
Qed.

Lemma stdout_reader_break (raw : string) (rest : list string) :
  decode_ascii raw = Ret raw ->
  Py.startswith ";" (Py.strip raw) = false ->
  Py.contains "TERMINATE" (Py.strip raw) = true ->
  stdout_reader (raw :: rest) = ([], Stopped).
Proof.
  intros Hd H1 H2. cbn [stdout_reader]. unfold stdout_reader_step.
  rewrite Hd, (classify_terminate _ H1 H2). reflexivity.
Qed.

(** C4, as the code orders its tests.  A line starting with [;] is
    dropped.  A result line whose payload [float] accepts is dropped.  On a
    result line without the termination keyword, a payload in parentheses is
    put on the queue unchanged and a payload in double quotes is put on the
    queue with its double quotes removed.  The payload [NIL] is put on the
    queue.  A line that is no comment, does not hold [TERMINATE] and holds
    [Error:] puts ['HALT'] on the queue.  A line that is no comment and holds
    [TERMINATE] ends the loop: no later line is processed. *)
Theorem classify_by_precedence :
  (forall text,
      Py.startswith ";" text = true -> classify text = ([], Continue)) /\
  (forall c payload,
      Py.is_float payload = true ->
      classify (result_line c payload) = ([], Continue)) /\
  (forall c mid,
      let line := result_line c (String "(" (mid ++ ")")) in
      Py.contains "TERMINATE" line = false ->
      last (fst (classify line)) = Some (String "(" (mid ++ ")")) /\
      snd (classify line) = Continue) /\
  (forall c mid,
      let line := result_line c (quoted mid) in
      Py.contains "TERMINATE" line = false ->
      last (fst (classify line))
      = Some (Py.replace Py.dquote EmptyString mid) /\
      snd (classify line) = Continue) /\
  (forall c, classify (result_line c "NIL") = (["NIL"], Continue)) /\
  (forall text,
      Py.startswith ";" text = false ->
      Py.contains "TERMINATE" text = false ->
      Py.contains "Error:" text = true ->
      exists more, fst (classify text) = "HALT" :: more) /\
  (forall raw rest,
      decode_ascii raw = Ret raw ->
      Py.startswith ";" (Py.strip raw) = false ->
      Py.contains "TERMINATE" (Py.strip raw) = true ->
      stdout_reader (raw :: rest) = ([], Stopped)).
Proof.
  split; [exact classify_comment|].
  split; [exact classify_float|].
  split; [exact classify_parenthesized|].
  split; [exact classify_quoted|].
  split; [exact classify_nil|].
  split; [exact classify_error|].
  exact stdout_reader_break.
Qed.

Lemma classify_by_precedence_witness :
  classify ";comment" = ([], Continue) /\
  classify "? 3.14" = ([], Continue) /\
  last (fst (classify "? (Aac Ice)")) = Some "(Aac Ice)" /\
  last (fst (classify ("? " ++ quoted "Aac"))) = Some "Aac" /\
  classify "? NIL" = (["NIL"], Continue) /\
  (exists more,
      fst (classify "> Error: Unbound variable: X") = "HALT" :: more) /\
  stdout_reader [quoted "TERMINATE"; "? NIL"] = ([], Stopped).
Proof.
  destruct classify_by_precedence
    as (Hcomment & Hfloat & Hparen & Hquote & Hnil & Herror & Hstop).
  split; [apply (Hcomment ";comment"); reflexivity|].
  split; [apply (Hfloat " "%char "3.14"); reflexivity|].
  split; [exact (proj1 (Hparen " "%char "Aac Ice" eq_refl))|].
  split; [exact (proj1 (Hquote " "%char "Aac" eq_refl))|].
  split; [apply (Hnil " "%char)|].
  split; [apply (Herror "> Error: Unbound variable: X"); reflexivity|].
  apply (Hstop (quoted "TERMINATE") ["? NIL"]); reflexivity.
Defined.

(** C4 as stated does not hold.  A comment that holds [Error:] puts nothing
    on the queue; the line of the termination handshake itself has a payload
    in double quotes and is not put on the queue; a comment that holds
    [TERMINATE] does not end the loop, the next line is still processed. *)
Lemma classify_counterexample :
  (Py.contains "Error:" "; Error: x" = true /\
   classify "; Error: x" = ([], Continue)) /\
  classify ("? " ++ quoted "TERMINATE") = ([], Break) /\
  (Py.contains "TERMINATE" "; TERMINATE" = true /\
   stdout_reader ["; TERMINATE"; "? NIL"] = (["NIL"], Reading)).
Proof. repeat split; vm_compute; reflexivity. Qed.

(** C2, on a result line that holds an error text: the iteration puts two
    entries on the queue, ['HALT'] and then the payload, because the test
    for the error texts is not followed by [continue]. *)
Theorem reader_step_puts_two_entries :
  stdout_reader_step "? (Error: Unbound variable: X)"
  = (["HALT"; "(Error: Unbound variable: X)"], Continue).
Proof. vm_compute. reflexivity. Qed.

(** * Further properties *)

(** ** The premise encoder on arbitrary identifiers *)

Lemma template_quant_of (c : ascii) :
  dict_get template_quant (String c EmptyString)
  = match quant_of c with
    | Some QA => Ret "All {} are {}"
    | Some QI => Ret "Some {} are {}"
    | Some QE => Ret "No {} are {}"
    | Some QO => Ret "Some {} are not {}"
    | None => Exc KeyError
    end.
Proof. destruct c as [[] [] [] [] [] [] [] []]; reflexivity. Qed.

Lemma template_fig_of (c : ascii) :
  dict_get template_fig (String c EmptyString)
  = match fig_of c with
    | Some F1 => Ret (["A"; "B"], ["B"; "C"])
    | Some F2 => Ret (["B"; "A"], ["C"; "B"])
    | Some F3 => Ret (["A"; "B"], ["C"; "B"])
    | Some F4 => Ret (["B"; "A"], ["B"; "C"])
    | None => Exc KeyError
    end.
Proof. destruct c as [[] [] [] [] [] [] [] []]; reflexivity. Qed.

Lemma quant_of_letter (c : ascii) (q : quantifier) :
  quant_of c = Some q -> c = quant_letter q.
Proof.
  destruct c as [[] [] [] [] [] [] [] []]; try discriminate;
    intros [= <-]; reflexivity.
Qed.

Lemma fig_of_digit (c : ascii) (f : figure) :
  fig_of c = Some f -> c = fig_digit f.
Proof.
  destruct c as [[] [] [] [] [] [] [] []]; try discriminate;
    intros [= <-]; reflexivity.
Qed.

Lemma quant_not_fig (c : ascii) (q : quantifier) :
  quant_of c = Some q -> fig_of c = None.
Proof. destruct c as [[] [] [] [] [] [] [] []]; try discriminate; reflexivity. Qed.

Lemma get_last_cons (a : ascii) (s : string) :
  exists c, String.get (String.length (String a s) - 1) (String a s) = Some c.
Proof.
  revert a. induction s as [|b s IH]; intros a.
  - exists a. reflexivity.
  - destruct (IH b) as [c Hc]. exists c. simpl in *.
    rewrite Nat.sub_0_r in Hc. exact Hc.
Qed.

Lemma index_one_short (a : ascii) :
  Py.index (String a EmptyString) 1 = Exc IndexError.
Proof. reflexivity. Qed.

(** [construct_premises] on any text: the documented pair when the text
    names two quantifiers and a figure, [IndexError] on the empty text and
    [KeyError] on every other text. *)
Lemma construct_premises_decode (s : string) :
  construct_premises s
  = match decode_syllog s with
    | Some (q1, q2, f) => Ret (documented_premises q1 q2 f)
    | None => if Py.is_empty s then Exc IndexError else Exc KeyError
    end.
Proof.
  destruct s as [|a s]; [reflexivity|].
  destruct (get_last_cons a s) as [c Hc].
  unfold decode_syllog. rewrite Hc. cbn [String.get Py.is_empty].
  destruct (quant_of a) as [q1|] eqn:Hq1.
  - destruct (fig_of c) as [f|] eqn:Hf.
    + destruct s as [|b s].
      * simpl in Hc. injection Hc as <-.
        rewrite (quant_not_fig _ _ Hq1) in Hf. discriminate.
      * cbn [String.get]. destruct (quant_of b) as [q2|] eqn:Hq2.
        -- apply quant_of_letter in Hq1, Hq2. apply fig_of_digit in Hf.
           subst a b c. rewrite <- (construct_premises_syllog_id q1 q2 f).
           eapply construct_premises_depends_on; try reflexivity;
             try exact Hc; destruct q1, q2, f; reflexivity.
        -- unfold construct_premises.
           rewrite (index_nonneg (String a (String b s)) 0 a eq_refl
                    : Py.index (String a (String b s)) 0 = _).
           rewrite (index_nonneg (String a (String b s)) 1 b eq_refl
                    : Py.index (String a (String b s)) 1 = _).
           rewrite (index_last _ c Hc). cbn [mbind outcome_bind obind].
           rewrite !template_quant_of, template_fig_of, Hq1, Hq2, Hf.
           destruct q1, f; reflexivity.
    + unfold construct_premises.
      rewrite (index_nonneg (String a s) 0 a eq_refl
               : Py.index (String a s) 0 = _).
      rewrite (index_last _ c Hc). cbn [mbind outcome_bind obind].
      rewrite !template_quant_of, template_fig_of, Hq1, Hf.
      destruct (String.get 0 s) as [b|]; try destruct (quant_of b);
        destruct q1; reflexivity.
  - unfold construct_premises.
    rewrite (index_nonneg (String a s) 0 a eq_refl
             : Py.index (String a s) 0 = _).
    cbn [mbind outcome_bind obind]. rewrite !template_quant_of, Hq1.
    destruct (String.get 0 s) as [b|]; try destruct (quant_of b);
      try destruct (fig_of c); reflexivity.
Qed.

(** X1: [construct_premises] returns exactly on the texts whose first two
    characters are quantifier letters and whose last character is a figure
    digit, and then gives the documented pair; the empty text raises
    [IndexError] and every other text raises [KeyError]. *)
Theorem construct_premises_by_decoding (s : string) :
  construct_premises s
  = match decode_syllog s with
    | Some (q1, q2, f) => Ret (documented_premises q1 q2 f)
    | None => if Py.is_empty s then Exc IndexError else Exc KeyError
    end.
Proof. exact (construct_premises_decode s). Qed.

(** X2: two identifiers that differ in a quantifier or in the figure get
    different premise pairs. *)
Theorem construct_premises_injective
  (q1 q2 q1' q2' : quantifier) (f f' : figure) :
  construct_premises (syllog_id q1 q2 f)
  = construct_premises (syllog_id q1' q2' f') ->
  (q1, q2, f) = (q1', q2', f').
Proof.
  rewrite !construct_premises_syllog_id.
  destruct q1, q2, f, q1', q2', f'; intros H;
    first [reflexivity | discriminate H].
Qed.

Lemma construct_premises_injective_witness :
  (QE, QO, F2) = (QE, QO, F2).
Proof.
  apply (construct_premises_injective QE QO QE QO F2 F2). reflexivity.
Defined.

(** ** The reader on arbitrary lines *)








(** X5: the reader handles lines in order.  As long as it is still reading
    after [lines1], its entries for [lines1 ++ lines2] are those of [lines1]
    followed by those of [lines2]; once it has stopped or died, later lines
    add nothing. *)
Theorem stdout_reader_app (lines1 lines2 : list string) :
  stdout_reader (lines1 ++ lines2)
  = match stdout_reader lines1 with
    | (puts, Reading) =>
        ((puts ++ fst (stdout_reader lines2))%list,
         snd (stdout_reader lines2))
    | (puts, status) => (puts, status)
    end.
Proof.
  induction lines1 as [|raw lines1 IH].
  - simpl. destruct (stdout_reader lines2). reflexivity.
  - cbn [app stdout_reader]. destruct (stdout_reader_step raw) as [puts ctl].
    destruct ctl; [|reflexivity|reflexivity].
    rewrite IH. destruct (stdout_reader lines1) as [more status].
    destruct status; [|reflexivity|reflexivity].
    simpl. rewrite app_assoc. reflexivity.
Qed.

(** ** The query protocol on arbitrary identifiers and queues *)

Lemma query_invalid (syllog : string) (st : mreasoner) :
  decode_syllog syllog = None ->
  query syllog st
  = (Exc (if Py.is_empty syllog then IndexError else KeyError), st).
Proof.
  intros Hd. apply query_no_premises.
  rewrite construct_premises_decode, Hd. destruct (Py.is_empty syllog); reflexivity.
Qed.

Lemma construct_premises_valid (syllog : string) (q1 q2 : quantifier) (f : figure) :
  decode_syllog syllog = Some (q1, q2, f) ->
  construct_premises syllog = Ret (documented_premises q1 q2 f).
Proof. intros Hd. rewrite construct_premises_decode, Hd. reflexivity. Qed.

(** X6: [query] on a text that does not name two quantifiers and a figure
    raises [IndexError] (empty text) or [KeyError] before anything is sent:
    the instance is left exactly as it was. *)
Theorem query_invalid_identifier (syllog : string) (st : mreasoner) :
  decode_syllog syllog = None ->
  query syllog st
  = (Exc (if Py.is_empty syllog then IndexError else KeyError), st).
Proof. exact (query_invalid syllog st). Qed.

Lemma query_invalid_identifier_witness :
  query "B1" (fresh ["NIL"]) = (Exc KeyError, fresh ["NIL"]) /\
  query EmptyString (fresh ["NIL"]) = (Exc IndexError, fresh ["NIL"]).
Proof.
  split.
  - apply (query_invalid_identifier "B1"). reflexivity.
  - apply (query_invalid_identifier EmptyString). reflexivity.
Defined.

(** What [query] leaves behind, whatever its outcome. *)
Lemma query_state (syllog : string) (st : mreasoner) :
  exists cmds n,
    length cmds <= 2 /\ n <= length cmds /\
    snd (query syllog st)
    = MReasoner (param_bounds st) (executed_commands st ++ cmds)
                (drop n (resp_queue st)) (default_params st) (params st).
Proof.
  destruct (decode_syllog syllog) as [[[q1 q2] f]|] eqn:Hd.
  - rewrite (query_unfold _ _ _ (construct_premises_valid _ _ _ _ Hd)).
    unfold sent. destruct st as [pb cmds q dp ps]. cbn [resp_queue].
    destruct q as [|e1 q]; cbn [param_bounds executed_commands resp_queue
                                default_params params snd].
    + exists [generation_command (documented_premises q1 q2 f)], 0.
      repeat split; simpl; lia.
    + cbv zeta. cbn [param_bounds executed_commands resp_queue
                     default_params params].
      destruct (Py.contains "Q-INTENSION" e1).
      * destruct q as [|e2 q]; cbn [snd param_bounds executed_commands
                                    resp_queue default_params params].
        -- exists [generation_command (documented_premises q1 q2 f);
                   interpretation_command], 1.
           rewrite <- app_assoc. repeat split; simpl; lia.
        -- exists [generation_command (documented_premises q1 q2 f);
                   interpretation_command], 2.
           rewrite <- app_assoc. repeat split; simpl; lia.
      * exists [generation_command (documented_premises q1 q2 f)], 1.
        destruct (_ || _)%bool; repeat split; simpl; lia.
  - rewrite (query_invalid _ _ Hd). exists [], 0. destruct st.
    simpl. rewrite app_nil_r. repeat split; lia.
Qed.

(** X7: whatever its outcome, [query] leaves the stored parameters, the
    defaults and the bounds alone, appends at most two commands and takes
    at most as many entries from the front of the queue as it has sent
    commands. *)
Theorem query_frame (syllog : string) (st : mreasoner) :
  exists cmds n,
    length cmds <= 2 /\ n <= length cmds /\
    snd (query syllog st)
    = MReasoner (param_bounds st) (executed_commands st ++ cmds)
                (drop n (resp_queue st)) (default_params st) (params st).
Proof. exact (query_state syllog st). Qed.

(** X8: when the entry of the generation phase contains ['Q-INTENSION'],
    [query] sends the interpretation command, takes the next entry and
    returns its words; the second entry is not examined, so a ['HALT'] that
    arrives in the interpretation phase comes back as the candidate list
    [['HALT']]. *)
Theorem query_quantified
  (syllog : string) (prems : string * string) (st : mreasoner)
  (first second : string) (rest : list string) :
  construct_premises syllog = Ret prems ->
  resp_queue st = first :: second :: rest ->
  Py.contains "Q-INTENSION" first = true ->
  query syllog st
  = (Ret (parse_candidates second),
     sent [generation_command prems; interpretation_command] rest st)
  /\ (second = "HALT" -> fst (query syllog st) = Ret ["HALT"]).
Proof.
  intros Hp Hq HQ.
  assert (H : query syllog st
              = (Ret (parse_candidates second),
                 sent [generation_command prems; interpretation_command]
                      rest st)).
  { rewrite (query_unfold _ _ _ Hp), Hq. cbv zeta. rewrite HQ.
    unfold sent. simpl. rewrite <- app_assoc. reflexivity. }
  split; [exact H|]. intros ->. rewrite H. reflexivity.
Qed.

Lemma query_quantified_witness :
  fst (query "AA1" (fresh ["(#<Q-INTENSION #x1>)"; "HALT"])) = Ret ["HALT"].
Proof.
  apply (query_quantified "AA1" ("All A are B", "All B are C")
           (fresh ["(#<Q-INTENSION #x1>)"; "HALT"])
           "(#<Q-INTENSION #x1>)" "HALT" []); reflexivity.
Defined.

(** X9: [query] does not return exactly when the premises are built and the
    reader delivers no entry, or delivers one entry that contains
    ['Q-INTENSION'] and nothing after it. *)
Theorem query_blocks_iff (syllog : string) (st : mreasoner) :
  fst (query syllog st) = Block <->
  decode_syllog syllog <> None /\
  (resp_queue st = [] \/
   exists entry, resp_queue st = [entry]
                 /\ Py.contains "Q-INTENSION" entry = true).
Proof.
  destruct (decode_syllog syllog) as [[[q1 q2] f]|] eqn:Hd.
  - rewrite (query_unfold _ _ _ (construct_premises_valid _ _ _ _ Hd)).
    destruct (resp_queue st) as [|e1 q].
    + split; [intros _; split; [discriminate|left; reflexivity]|reflexivity].
    + cbv zeta. destruct (Py.contains "Q-INTENSION" e1) eqn:HQ.
      * destruct q as [|e2 q]; split.
        -- intros _. split; [discriminate|]. right. exists e1. auto.
        -- reflexivity.
        -- discriminate.
        -- intros (_ & [H|(e & H & _)]); discriminate.
      * split.
        -- destruct (_ || _)%bool; discriminate.
        -- intros (_ & [H|(e & [= <- <-] & He)]); [discriminate|congruence].
  - rewrite (query_invalid _ _ Hd). split; [discriminate|].
    intros [H _]. congruence.
Qed.

Lemma query_blocks_iff_witness :
  fst (query "AA1" (fresh [])) = Block /\
  fst (query "AA1" (fresh ["(#<Q-INTENSION #x1>)"])) = Block.
Proof.
  split.
  - apply (query_blocks_iff "AA1" (fresh [])). split; [discriminate|].
    left. reflexivity.
  - apply (query_blocks_iff "AA1" (fresh ["(#<Q-INTENSION #x1>)"])).
    split; [discriminate|]. right. eexists. split; reflexivity.
Defined.

(** ** Candidate lists *)

Lemma all_chars_app (P : ascii -> bool) (s t : string) :
  all_chars P (s ++ t) = all_chars P s && all_chars P t.
Proof.
  induction s as [|c s IH]; simpl; [reflexivity|].
  rewrite IH, andb_assoc. reflexivity.
Qed.

Lemma all_chars_replace (P : ascii -> bool) (old : ascii) (s : string) :
  all_chars P s = true -> all_chars P (Py.replace old EmptyString s) = true.
Proof.
  induction s as [|c s IH]; simpl; [reflexivity|].
  rewrite andb_true_iff. intros [Hc Hs]. destruct (Ascii.eqb c old); simpl.
  - apply IH, Hs.
  - rewrite Hc, (IH Hs). reflexivity.
Qed.

Lemma replace_removes (old : ascii) (s : string) :
  all_chars (fun c => negb (Ascii.eqb c old))
            (Py.replace old EmptyString s) = true.
Proof.
  induction s as [|c s IH]; simpl; [reflexivity|].
  destruct (Ascii.eqb c old) eqn:Hc; simpl; [exact IH|].
  rewrite Hc, IH. reflexivity.
Qed.

Lemma all_chars_and (P Q : ascii -> bool) (s : string) :
  all_chars P s = true -> all_chars Q s = true ->
  all_chars (fun c => P c && Q c) s = true.
Proof.
  induction s as [|c s IH]; simpl; [reflexivity|].
  rewrite !andb_true_iff. intros [HP HPs] [HQ HQs].
  rewrite HP, HQ. auto.
Qed.

Lemma cleaned_plain (s : string) :
  all_chars plain_char
    (Py.replace ")" EmptyString
       (Py.replace "(" EmptyString
          (Py.replace Py.dquote EmptyString s))) = true.
Proof.
  apply (all_chars_and (fun c => negb (Ascii.eqb c ")"))
                       (fun c => negb (Ascii.eqb c "(")
                                 && negb (Ascii.eqb c Py.dquote)));
    [apply replace_removes|].
  apply all_chars_replace.
  apply (all_chars_and (fun c => negb (Ascii.eqb c "("))
                       (fun c => negb (Ascii.eqb c Py.dquote)));
    [apply replace_removes|].
  apply all_chars_replace, replace_removes.
Qed.

Lemma token_char_plain (c : ascii) :
  Py.isspace c = false -> plain_char c = true -> token_char c = true.
Proof.
  unfold token_char, plain_char. intros ->.
  destruct (Ascii.eqb c ")"), (Ascii.eqb c "("), (Ascii.eqb c Py.dquote);
    simpl; congruence.
Qed.

Lemma split_from_tokens (s : string) :
  forall cur,
    all_chars token_char cur = true -> all_chars plain_char s = true ->
    Forall (fun w => is_token w = true) (Py.split_from cur s).
Proof.
  induction s as [|c s IH]; intros cur Hcur Hs; simpl.
  - destruct cur as [|a cur]; simpl; [constructor|].
    constructor; [|constructor]. unfold is_token. simpl in *. exact Hcur.
  - simpl in Hs. apply andb_true_iff in Hs as [Hc Hs].
    destruct (Py.isspace c) eqn:Hsp.
    + destruct cur as [|a cur]; simpl; [apply IH; auto|].
      constructor; [unfold is_token; simpl in *; exact Hcur|].
      apply IH; auto.
    + apply IH; [|exact Hs]. rewrite all_chars_app, Hcur. simpl.
      rewrite (token_char_plain _ Hsp Hc). reflexivity.
Qed.

Lemma parse_candidates_tokens (conclusion : string) :
  Forall (fun w => is_token w = true) (parse_candidates conclusion).
Proof.
  unfold parse_candidates, Py.split.
  apply split_from_tokens; [reflexivity|apply cleaned_plain].
Qed.

(** X10: every candidate that [query] returns is a non-empty text without
    whitespace, double quotes and parentheses. *)
Theorem query_candidates_are_tokens
  (syllog : string) (st st' : mreasoner) (candidates : list string) :
  query syllog st = (Ret candidates, st') ->
  Forall (fun w => is_token w = true) candidates.
Proof.
  intros H. destruct (decode_syllog syllog) as [[[q1 q2] f]|] eqn:Hd.
  - rewrite (query_unfold _ _ _ (construct_premises_valid _ _ _ _ Hd)) in H.
    destruct (resp_queue st) as [|e1 q]; [discriminate H|]. cbv zeta in H.
    destruct (Py.contains "Q-INTENSION" e1).
    + destruct q as [|e2 q]; [discriminate H|]. injection H as <- _.
      apply parse_candidates_tokens.
    + destruct (_ || _)%bool; [|discriminate H]. injection H as <- _.
      repeat constructor.
  - rewrite (query_invalid _ _ Hd) in H. discriminate H.
Qed.

Lemma query_candidates_are_tokens_witness :
  Forall (fun w => is_token w = true) ["Aac"; "Iac"].
Proof.
  apply (query_candidates_are_tokens "AA1"
           (fresh ["(#<Q-INTENSION #x1>)"; render_candidates ["Aac"; "Iac"]])
           (snd (query "AA1"
                   (fresh ["(#<Q-INTENSION #x1>)";
                           render_candidates ["Aac"; "Iac"]])))).
  vm_compute. reflexivity.
Defined.

(** *** Reading a printed list back *)

Lemma append_empty_r (s : string) : s ++ EmptyString = s.
Proof.
  induction s as [|c s IH]; [reflexivity|].
  change (String c s ++ EmptyString) with (String c (s ++ EmptyString)).
  rewrite IH. reflexivity.
Qed.

Lemma append_assoc (s t u : string) : (s ++ t) ++ u = s ++ (t ++ u).
Proof.
  induction s as [|c s IH]; [reflexivity|].
  change ((String c s ++ t) ++ u) with (String c ((s ++ t) ++ u)).
  rewrite IH. reflexivity.
Qed.

Lemma replace_app (old : ascii) (s t : string) :
  Py.replace old EmptyString (s ++ t)
  = Py.replace old EmptyString s ++ Py.replace old EmptyString t.
Proof.
  induction s as [|c s IH]; simpl; [reflexivity|].
  destruct (Ascii.eqb c old); simpl; rewrite IH; reflexivity.
Qed.

Lemma clean_app (s t : string) : clean (s ++ t) = clean s ++ clean t.
Proof. unfold clean. rewrite !replace_app. reflexivity. Qed.

Lemma token_plain (w : string) :
  all_chars token_char w = true ->
  all_chars (fun c => negb (Py.isspace c)) w = true /\
  all_chars (fun c => negb (Ascii.eqb c Py.dquote)) w = true /\
  all_chars (fun c => negb (Ascii.eqb c "(")) w = true /\
  all_chars (fun c => negb (Ascii.eqb c ")")) w = true.
Proof.
  intros H. repeat split; revert H; apply all_chars_mono; intros c;
    unfold token_char;
    destruct (Py.isspace c), (Ascii.eqb c Py.dquote), (Ascii.eqb c "("),
      (Ascii.eqb c ")"); simpl; congruence.
Qed.

Lemma clean_token (w : string) :
  all_chars token_char w = true -> clean w = w.
Proof.
  intros H. destruct (token_plain w H) as (_ & Hq & Ho & Hc).
  unfold clean. rewrite (replace_absent _ _ Hq), (replace_absent _ _ Ho).
  apply (replace_absent _ _ Hc).
Qed.

Lemma clean_quoted (w : string) :
  all_chars token_char w = true -> clean (quoted w) = w.
Proof.
  intros H. unfold quoted.
  change (String Py.dquote (w ++ String Py.dquote EmptyString))
    with (String Py.dquote EmptyString ++ (w ++ String Py.dquote EmptyString)).
  rewrite !clean_app, (clean_token w H).
  change (clean (String Py.dquote EmptyString)) with EmptyString.
  simpl. apply append_empty_r.
Qed.

Lemma clean_render_words (ws : list string) :
  Forall (fun w => is_token w = true) ws ->
  clean (render_words ws) = join_words ws.
Proof.
  induction 1 as [|w ws Hw Hws IH]; [reflexivity|].
  unfold is_token in Hw. apply andb_true_iff in Hw as [_ Hw].
  destruct ws as [|w' ws]; [apply clean_quoted, Hw|].
  change (render_words (w :: w' :: ws))
    with (quoted w ++ " " ++ render_words (w' :: ws)).
  change (join_words (w :: w' :: ws))
    with (w ++ " " ++ join_words (w' :: ws)).
  rewrite !clean_app, (clean_quoted w Hw), IH. reflexivity.
Qed.

Lemma split_from_word (w : string) :
  forall cur rest,
    all_chars (fun c => negb (Py.isspace c)) w = true ->
    Py.split_from cur (w ++ rest) = Py.split_from (cur ++ w) rest.
Proof.
  induction w as [|c w IH]; intros cur rest Hw.
  - simpl. rewrite append_empty_r. reflexivity.
  - simpl in Hw. apply andb_true_iff in Hw as [Hc Hw]. simpl.
    destruct (Py.isspace c); [discriminate|].
    rewrite (IH _ _ Hw), append_assoc. reflexivity.
Qed.

Lemma split_join_words (ws : list string) :
  Forall (fun w => is_token w = true) ws ->
  Py.split (join_words ws) = ws.
Proof.
  unfold Py.split. induction 1 as [|w ws Hw Hws IH]; [reflexivity|].
  unfold is_token in Hw. apply andb_true_iff in Hw as [Hne Hw].
  destruct (token_plain w Hw) as (Hsp & _).
  destruct ws as [|w' ws].
  - change (join_words [w]) with w. rewrite <- (append_empty_r w) at 1.
    rewrite (split_from_word w _ _ Hsp).
    change (EmptyString ++ w) with w.
    destruct w; [discriminate|reflexivity].
  - change (join_words (w :: w' :: ws))
      with (w ++ String " " (join_words (w' :: ws))).
    rewrite (split_from_word w _ _ Hsp).
    change (EmptyString ++ w) with w.
    change (Py.split_from w (String " " (join_words (w' :: ws))))
      with (if Py.is_empty w then Py.split_from EmptyString (join_words (w' :: ws))
            else w :: Py.split_from EmptyString (join_words (w' :: ws))).
    rewrite IH. destruct w; [discriminate|reflexivity].
Qed.

(** X11: the words of a printed list come back: for candidates without
    whitespace, double quotes and parentheses, the last step of [query]
    applied to the list as the engine prints it gives the candidates
    again, in order. *)
Theorem parse_render_candidates (ws : list string) :
  Forall (fun w => is_token w = true) ws ->
  parse_candidates (render_candidates ws) = ws.
Proof.
  intros H. unfold parse_candidates. fold (clean (render_candidates ws)).
  unfold render_candidates.
  change ("(" ++ render_words ws ++ ")")
    with (String "(" EmptyString ++ (render_words ws ++ String ")" EmptyString)).
  rewrite !clean_app, (clean_render_words ws H).
  change (clean (String "(" EmptyString)) with EmptyString.
  change (clean (String ")" EmptyString)) with EmptyString.
  simpl. rewrite append_empty_r. apply split_join_words, H.
Qed.

Lemma parse_render_candidates_witness :
  parse_candidates (render_candidates ["Aac"; "Iac"; "Ica"])
  = ["Aac"; "Iac"; "Ica"].
Proof.
  apply (parse_render_candidates ["Aac"; "Iac"; "Ica"]).
  repeat constructor.
Defined.

(** ** The parameter store and the constructor *)

Lemma for_each_set_param_state (l : list (string * Qc)) :
  forall st,
    (forall nv, nv ∈ l -> is_Some (params st !! fst nv)) ->
    for_each (fun nv => set_param (fst nv) (snd nv)) l st
    = (Ret tt,
       MReasoner (param_bounds st)
                 (executed_commands st
                  ++ map (fun nv => setf_command (fst nv) (snd nv)) l)
                 (resp_queue st) (default_params st)
                 (foldl (fun m nv => <[fst nv := snd nv]> m) (params st) l)).
Proof.
  induction l as [|nv l IH]; intros st Hin.
  - destruct st. simpl. rewrite app_nil_r. reflexivity.
  - cbn [for_each]. unfold mbind at 1, M_bind at 1.
    destruct (Hin nv (list_elem_of_here _ _)) as [v Hv].
    rewrite (set_param_known _ _ _ _ Hv). rewrite IH.
    + cbn [param_bounds executed_commands resp_queue default_params params
           map foldl]. rewrite <- app_assoc. reflexivity.
    + intros nv' H. cbn [params]. apply lookup_insert_is_Some'. right.
      apply Hin, list_elem_of_further, H.
Qed.

(** X12: on an instance with the four keys, [set_param_vec] stores the
    values it is given in the order epsilon, lambda, omega, sigma and sends
    one command for each: reading a parameter back gives the value of its
    position, a parameter beyond the end of a short vector keeps its old
    value, and values beyond the fourth are ignored.  The queue is not
    touched. *)
Theorem set_param_vec_stores (values : list Qc) (st : mreasoner) :
  keys_ok st ->
  exists st',
    set_param_vec values st = (Ret tt, st') /\
    (forall i name,
        param_names !! i = Some name ->
        params st' !! name
        = match values !! i with
          | Some v => Some v
          | None => params st !! name
          end) /\
    executed_commands st'
    = (executed_commands st ++ zip_with setf_command param_names values)%list
    /\ resp_queue st' = resp_queue st.
Proof.
  intros Hk. unfold set_param_vec. eexists. split.
  - apply for_each_set_param_state. intros [name v] H.
    apply elem_of_zip_l in H. apply Hk, H.
  - cbn [params executed_commands resp_queue]. split; [|split].
    + intros i name Hi.
      destruct i as [|[|[|[|i]]]]; simpl in Hi; try discriminate Hi;
        injection Hi as <-;
        destruct values as [|v1 [|v2 [|v3 [|v4 values]]]]; simpl;
        rewrite ?lookup_insert_ne by discriminate;
        rewrite ?lookup_insert_eq; reflexivity.
    + f_equal.
      destruct values as [|v1 [|v2 [|v3 [|v4 values]]]]; reflexivity.
    + reflexivity.
Qed.

Lemma set_param_vec_stores_witness :
  exists st',
    set_param_vec [Q2Qc (1 # 2); Qc_of_Z 2] (fresh ["NIL"]) = (Ret tt, st') /\
    (forall i name,
        param_names !! i = Some name ->
        params st' !! name
        = match [Q2Qc (1 # 2); Qc_of_Z 2] !! i with
          | Some v => Some v
          | None => params (fresh ["NIL"]) !! name
          end) /\
    executed_commands st'
    = (executed_commands (fresh ["NIL"])
       ++ ["(setf +epsilon+ 0.500000)"; "(setf +lambda+ 2.000000)"])%list
    /\ resp_queue st' = ["NIL"].
Proof.
  exact (set_param_vec_stores [Q2Qc (1 # 2); Qc_of_Z 2] (fresh ["NIL"])
           (fresh_keys_ok ["NIL"])).
Defined.



(** X14: on any other platform the constructor raises [KeyError] when it
    looks up the ending of the compiled file, before any command is
    sent. *)
Theorem init_unknown_platform
  (mreasoner_dir sep system : string) (fasl_exists : bool)
  (reader_entries : list string) :
  system <> "Darwin" -> system <> "Windows" -> system <> "Linux" ->
  __init__ mreasoner_dir sep system fasl_exists (blank reader_entries)
  = (Exc KeyError, blank reader_entries).
Proof.
  intros H1 H2 H3. unfold __init__.
  unfold mbind at 1, M_bind at 1, lift at 1.
  assert (Hd : dict_get FASL_ENDINGS system = Exc KeyError).
  { unfold dict_get, FASL_ENDINGS, List.find. cbn [fst snd].
    destruct (String.eqb_spec "Darwin" system); [congruence|].
    destruct (String.eqb_spec "Windows" system); [congruence|].
    destruct (String.eqb_spec "Linux" system); [congruence|].
    reflexivity. }
  rewrite Hd. reflexivity.
Qed.

Lemma init_unknown_platform_witness :
  __init__ "/opt/mreasoner/src" "/" "FreeBSD" true (blank [])
  = (Exc KeyError, blank []).
Proof.
  apply (init_unknown_platform "/opt/mreasoner/src" "/" "FreeBSD");
    discriminate.
Defined.

(** ** The range and the edges of the objective *)

Lemma Qc_of_nat_pos (n : nat) : (0 < Qc_of_nat (S n))%Qc.
Proof.
  unfold Qc_of_nat. rewrite <- Z2Qc_inj_0.
  apply (proj1 (Z2Qc_inj_lt 0 (Z.of_nat (S n)))). lia.
Qed.

Lemma Qc_of_nat_le (n m : nat) : n <= m -> (Qc_of_nat n <= Qc_of_nat m)%Qc.
Proof.
  intros H. unfold Qc_of_nat.
  apply (proj1 (Z2Qc_inj_le (Z.of_nat n) (Z.of_nat m))). lia.
Qed.

Lemma Qc_of_nat_0 : Qc_of_nat 0 = 0%Qc.
Proof. apply Qc_is_canon. reflexivity. Qed.

Lemma Qcdiv_unit_interval (v x : Qc) :
  (0 < x)%Qc -> (0 <= v)%Qc -> (v <= x)%Qc ->
  (0 <= v / x)%Qc /\ (v / x <= 1)%Qc.
Proof.
  intros Hx H0 H1. unfold Qcdiv. split.
  - apply (Qcmult_lt_0_le_reg_r _ _ x Hx).
    rewrite Qcmult_0_l, <- Qcmult_assoc, Qcmult_inv_l, Qcmult_1_r;
      [exact H0|].
    intros ->. apply (Qclt_not_eq _ _ Hx). reflexivity.
  - apply (Qcmult_lt_0_le_reg_r _ _ x Hx).
    rewrite Qcmult_1_l, <- Qcmult_assoc, Qcmult_inv_l, Qcmult_1_r;
      [exact H1|].
    intros ->. apply (Qclt_not_eq _ _ Hx). reflexivity.
Qed.

Lemma score_of_unit_interval (resp : string) (pred : list string) :
  (0 <= score_of resp pred)%Qc /\ (score_of resp pred <= 1)%Qc.
Proof.
  unfold score_of. case_bool_decide as Hin; [|split; discriminate].
  destruct pred as [|p pred]; [inversion Hin|].
  apply Qcdiv_unit_interval; [apply Qc_of_nat_pos|discriminate|].
  rewrite <- (Z2Qc_inj_1). unfold Qc_of_nat.
  apply (proj1 (Z2Qc_inj_le 1 (Z.of_nat (length (p :: pred))))).
  simpl. lia.
Qed.

Lemma fold_loop_score_bounds (pairs : list (string * string)) :
  forall (acc v : Qc) (st st' : mreasoner),
    fold_loop (fun score tr => pred ← query (fst tr);
                               mret (score + score_of (snd tr) pred)%Qc)
              acc pairs st = (Ret v, st') ->
    (acc <= v)%Qc /\ (v <= acc + Qc_of_nat (length pairs))%Qc.
Proof.
  induction pairs as [|[task resp] pairs IH]; intros acc v st st' H.
  - simpl in H. unfold mret, M_ret in H. simplify_eq.
    change (Qc_of_nat (length (@nil (string * string)))) with (Qc_of_nat 0).
    rewrite Qc_of_nat_0, Qcplus_0_r. split; apply Qcle_refl.
  - cbn [fold_loop fst snd] in H. unfold mbind at 1, M_bind at 1 in H.
    unfold mbind at 1, M_bind at 1 in H.
    destruct (query task st) as [[pred|e|] st1]; try discriminate H.
    unfold mret at 1, M_ret at 1 in H. apply IH in H as [Hlo Hhi].
    destruct (score_of_unit_interval resp pred) as [H0 H1].
    cbn [length]. rewrite Qc_of_nat_S. split.
    + eapply Qcle_trans; [|exact Hlo].
      rewrite <- (Qcplus_0_r acc) at 1. apply Qcplus_le_mono_l, H0.
    + eapply Qcle_trans; [exact Hhi|].
      rewrite Qcplus_assoc. apply Qcplus_le_mono_r, Qcplus_le_mono_l, H1.
Qed.

Lemma fit_fun_range
  (values : list Qc) (train_x train_y : list string)
  (st st' : mreasoner) (inaccuracy : Qc) :
  _fit_fun values train_x train_y st = (Ret inaccuracy, st') ->
  (0 <= inaccuracy)%Qc /\ (inaccuracy <= 1)%Qc.
Proof.
  unfold _fit_fun. unfold mbind at 1, M_bind at 1.
  destruct (set_param_vec values st) as [[[]|e|] st1]; try discriminate.
  unfold mbind at 1, M_bind at 1.
  destruct (fold_loop _ 0%Qc (zip train_x train_y) st1)
    as [[score|e|] st2] eqn:Hfold; try discriminate.
  apply fold_loop_score_bounds in Hfold as [Hlo Hhi].
  rewrite Qcplus_0_l in Hhi.
  destruct train_x as [|task train_x]; [discriminate|].
  unfold mret, M_ret. intros [= <- <-].
  assert (Hlen : (score <= Qc_of_nat (length (task :: train_x)))%Qc).
  { eapply Qcle_trans; [exact Hhi|]. apply Qc_of_nat_le.
    rewrite length_zip. lia. }
  destruct (Qcdiv_unit_interval score (Qc_of_nat (length (task :: train_x)))
              (Qc_of_nat_pos _) Hlo Hlen) as [H0 H1].
  split.
  - unfold Qcminus. rewrite <- (Qcplus_opp_r 1).
    apply Qcplus_le_mono_l, Qcopp_le_compat, H1.
  - unfold Qcminus. rewrite <- (Qcplus_0_r 1) at 2.
    apply Qcplus_le_mono_l. change 0%Qc with (- 0)%Qc.
    apply Qcopp_le_compat, H0.
Qed.

(** X15: whenever [_fit_fun] returns, its value lies between 0 and 1; the
    failure score [-1] of [fit] and the initial best error [2] of the grid
    and random searches are therefore never values of the objective. *)
Theorem fit_fun_unit_interval
  (values : list Qc) (train_x train_y : list string)
  (st st' : mreasoner) (inaccuracy : Qc) :
  _fit_fun values train_x train_y st = (Ret inaccuracy, st') ->
  (0 <= inaccuracy)%Qc /\ (inaccuracy <= 1)%Qc.
Proof. exact (fit_fun_range values train_x train_y st st' inaccuracy). Qed.

Lemma fit_fun_unit_interval_witness :
  (0 <= Q2Qc (1 # 2))%Qc /\ (Q2Qc (1 # 2) <= 1)%Qc.
Proof.
  apply (fit_fun_unit_interval factory_vector ["AA1"] ["Aac"]
           (fresh (stub_entries ["Aac Iac"]))
           (snd (_fit_fun factory_vector ["AA1"] ["Aac"]
                          (fresh (stub_entries ["Aac Iac"]))))).
  vm_compute. reflexivity.
Defined.

(** X16: with an empty [train_x] the objective is not defined:
    [_fit_fun] raises [ZeroDivisionError], and it does so after the
    parameters have been set and without any query. *)
Theorem fit_fun_empty_training
  (values : list Qc) (train_y : list string) (st st' : mreasoner) :
  set_param_vec values st = (Ret tt, st') ->
  _fit_fun values [] train_y st = (Exc ZeroDivisionError, st').
Proof.
  intros Hset. unfold _fit_fun. unfold mbind at 1, M_bind at 1.
  rewrite Hset. reflexivity.
Qed.

Lemma fit_fun_empty_training_witness :
  _fit_fun [Qc_of_Z 1] [] ["Aac"] (fresh ["NIL"])
  = (Exc ZeroDivisionError, snd (set_param_vec [Qc_of_Z 1] (fresh ["NIL"]))).
Proof.
  apply (fit_fun_empty_training [Qc_of_Z 1] ["Aac"] (fresh ["NIL"])).
  vm_compute. reflexivity.
Defined.

Lemma fst_zip_take {A B} (l : list A) (k : list B) :
  (zip l k).*1 = take (length k) l.
Proof.
  revert k. induction l as [|x l IH]; intros [|y k]; simpl;
    try reflexivity. rewrite IH. reflexivity.
Qed.

(** X17: tasks beyond the end of [train_y] are never queried but still
    count in the denominator: when [train_y] is not longer than [train_x]
    and every query of the first [len(train_y)] tasks returns the observed
    response as its only candidate, the objective is
    [1 - len(train_y) / len(train_x)]. *)
Theorem fit_fun_truncates
  (values : list Qc) (train_x train_y : list string)
  (st st1 st2 : mreasoner) (preds : list (list string)) :
  train_x <> [] ->
  length train_y <= length train_x ->
  set_param_vec values st = (Ret tt, st1) ->
  run_queries (take (length train_y) train_x) st1 = (Ret preds, st2) ->
  Forall2 (fun y p => p = [y]) train_y preds ->
  _fit_fun values train_x train_y st
  = (Ret (1 - Qc_of_nat (length train_y) / Qc_of_nat (length train_x))%Qc,
     st2).
Proof.
  intros Hne Hlen Hset Hrun Hall. unfold _fit_fun.
  unfold mbind at 1, M_bind at 1. rewrite Hset.
  unfold mbind at 1, M_bind at 1.
  rewrite <- fst_zip_take in Hrun.
  rewrite (fold_loop_scores _ _ _ _ _ Hrun), Qcplus_0_l.
  rewrite snd_zip by exact Hlen. rewrite (total_score_all_right _ _ Hall).
  destruct train_x; [congruence|reflexivity].
Qed.

Lemma fit_fun_truncates_witness :
  _fit_fun factory_vector ["AA1"; "EA1"; "IA1"; "OA1"] ["Aac"]
           (fresh (stub_entries ["Aac"]))
  = (Ret (1 - Qc_of_nat 1 / Qc_of_nat 4)%Qc,
     snd (run_queries ["AA1"]
            (snd (set_param_vec factory_vector
                    (fresh (stub_entries ["Aac"])))))).
Proof.
  apply (fit_fun_truncates factory_vector ["AA1"; "EA1"; "IA1"; "OA1"]
           ["Aac"] (fresh (stub_entries ["Aac"]))
           (snd (set_param_vec factory_vector (fresh (stub_entries ["Aac"]))))
           _ [["Aac"]]);
    [discriminate | simpl; lia | vm_compute; reflexivity
    | vm_compute; reflexivity | repeat constructor].
Defined.

(** ** The multi-start driver when runs succeed *)

(** X18: when at least one run was asked for and every run of the local
    optimizer fails, [fit] puts the four parameters back on the factory
    defaults, in the instance and in the engine, and returns the score [-1]
    with the default vector; a negative [num_fits] starts no run and ends
    the same way. *)
Theorem fit_resets_after_failures
  (minimize : nat -> list string -> list string -> M OptimizeResult)
  (train_x train_y : list string) (num_fits : Z) (st st_end : mreasoner) :
  num_fits <> 0%Z ->
  all_runs_fail minimize (seq 0 (Z.to_nat num_fits)) train_x train_y
                st st_end ->
  factory_ok st_end ->
  fit minimize train_x train_y num_fits st
  = (Ret ((- 1)%Qc, factory_vector),
     MReasoner (param_bounds st_end)
               (executed_commands st_end ++ reset_commands)%list
               (resp_queue st_end) factory_defaults
               (list_to_map factory_defaults)).
Proof.
  exact (fit_all_failed_resets minimize train_x train_y num_fits st st_end).
Qed.

Lemma fit_resets_after_failures_witness :
  fit failing_minimize ["AA1"] ["Aac"] 3 (fresh [])
  = (Ret ((- 1)%Qc, factory_vector),
     MReasoner (param_bounds (fresh []))
               (executed_commands (fresh []) ++ reset_commands)%list
               (resp_queue (fresh [])) factory_defaults
               (list_to_map factory_defaults)).
Proof.
  apply (fit_resets_after_failures failing_minimize ["AA1"] ["Aac"] 3
           (fresh []) (fresh [])).
  - discriminate.
  - simpl. repeat (eexists; eexists; split; [reflexivity|split; [reflexivity|]]).
    reflexivity.
  - apply fresh_factory_ok.
Defined.

Lemma insert_by_score_first_least (r best : Qc * list Qc)
      (s l : list (Qc * list Qc)) :
  first_least fst best l ->
  (exists rest, s = best :: rest) ->
  exists best' rest',
    insert_by_score r s = best' :: rest' /\ first_least fst best' (r :: l).
Proof.
  intros (before & after & -> & Hb & Ha) [rest ->]. cbn [insert_by_score].
  destruct (decide (fst r <= fst best)%Qc) as [Hle|Hgt].
  - exists r, (best :: rest). split; [reflexivity|].
    exists [], (before ++ best :: after)%list. split; [reflexivity|].
    split; [intros r' H; inversion H|].
    intros r' H. apply elem_of_app in H as [H|H].
    + eapply Qcle_trans; [exact Hle|]. apply Qclt_le_weak, Hb, H.
    + apply elem_of_cons in H as [->|H]; [exact Hle|].
      eapply Qcle_trans; [exact Hle|]. apply Ha, H.
  - exists best, (insert_by_score r rest). split; [reflexivity|].
    exists (r :: before), after. split; [reflexivity|]. split; [|exact Ha].
    intros r' H. apply elem_of_cons in H as [->|H]; [|apply Hb, H].
    apply Qcnot_le_lt, Hgt.
Qed.

(** The head of the sorted results is the first result of least score. *)
Lemma sorted_by_score_head (l : list (Qc * list Qc)) :
  l <> [] ->
  exists best rest,
    sorted_by_score l = best :: rest /\ first_least fst best l.
Proof.
  induction l as [|r l IH]; [congruence|]. intros _.
  unfold sorted_by_score. cbn [foldr]. fold (sorted_by_score l).
  destruct l as [|r' l].
  - exists r, []. split; [reflexivity|]. exists [], [].
    split; [reflexivity|]. split; intros r' H; inversion H.
  - destruct IH as (best & rest & Hs & Hfl); [discriminate|].
    apply (insert_by_score_first_least r best); [exact Hfl|eauto].
Qed.

Lemma fit_runs_run_all
  (minimize : nat -> list string -> list string -> M OptimizeResult)
  (idxs : list nat) (train_x train_y : list string) :
  forall (results : list (Qc * list Qc)) (st st' : mreasoner)
         (rs : list OptimizeResult),
    run_all minimize idxs train_x train_y st = (Ret rs, st') ->
    fit_runs minimize idxs train_x train_y results st
    = (Ret (results
            ++ map kept (filter (fun r => res_success r = true) rs))%list,
       st').
Proof.
  induction idxs as [|idx rest IH]; intros results st st' rs Hrun.
  - simpl in Hrun. unfold mret, M_ret in Hrun. simplify_eq.
    simpl. rewrite app_nil_r. reflexivity.
  - cbn [run_all] in Hrun. unfold mbind at 1, M_bind at 1 in Hrun.
    cbn [fit_runs]. unfold mbind at 1, M_bind at 1.
    destruct (minimize idx train_x train_y st) as [[res|e|] st1];
      try discriminate Hrun.
    unfold mbind at 1, M_bind at 1 in Hrun.
    destruct (run_all minimize rest train_x train_y st1)
      as [[more|e|] st2] eqn:Hrest; try discriminate Hrun.
    unfold mret, M_ret in Hrun. simplify_eq.
    rewrite (IH _ _ _ _ Hrest). rewrite filter_cons.
    destruct (res_success res) eqn:Hs.
    + rewrite decide_True by reflexivity. cbn [map].
      rewrite <- app_assoc. reflexivity.
    + rewrite decide_False by discriminate. reflexivity.
Qed.

(** X19: when the runs of an invocation return and at least one of them
    succeeds, [fit] returns the score and the parameters of the first
    successful run of least score, and stores these parameters. *)
Theorem fit_returns_first_best
  (minimize : nat -> list string -> list string -> M OptimizeResult)
  (train_x train_y : list string) (num_fits : Z) (st st1 : mreasoner)
  (rs : list OptimizeResult) :
  run_all minimize (seq 0 (Z.to_nat num_fits)) train_x train_y st
  = (Ret rs, st1) ->
  filter (fun r => res_success r = true) rs <> [] ->
  keys_ok st1 ->
  exists best st2,
    first_least res_fun best (filter (fun r => res_success r = true) rs) /\
    set_param_vec (res_x best) st1 = (Ret tt, st2) /\
    fit minimize train_x train_y num_fits st
    = (Ret (res_fun best, res_x best), st2).
Proof.
  intros Hrun Hne Hk.
  remember (filter (fun r => res_success r = true) rs) as ok eqn:Hok.
  destruct (sorted_by_score_head (map kept ok)) as (b & rest & Hs & Hfl).
  { destruct ok; [congruence|discriminate]. }
  destruct Hfl as (before & after & Heq & Hb & Ha).
  apply map_eq_app in Heq as (before' & tail' & -> & <- & Htail).
  apply map_eq_cons in Htail as (best & after' & -> & <- & <-).
  destruct (set_param_vec_returns (res_x best) st1 Hk) as (st2 & Hset & _).
  exists best, st2. split; [|split; [exact Hset|]].
  - exists before', after'. split; [reflexivity|]. split.
    + intros r H. apply (Hb (kept r)). apply list_elem_of_fmap. eauto.
    + intros r H. apply (Ha (kept r)). apply list_elem_of_fmap. eauto.
  - unfold fit. unfold mbind at 1, M_bind at 1.
    rewrite (fit_runs_run_all _ _ _ _ [] _ _ _ Hrun). cbn [app].
    unfold mbind at 1, M_bind at 1, self at 1. rewrite <- Hok.
    rewrite (bool_decide_eq_false_2
               (map kept (before' ++ best :: after') = [])).
    2:{ intros H. apply map_eq_nil in H. destruct before'; discriminate H. }
    rewrite andb_false_r. rewrite Hs.
    unfold kept at 1. cbn [fst snd].
    unfold mbind at 1, M_bind at 1. rewrite Hset. reflexivity.
Qed.

Lemma fit_returns_first_best_witness :
  exists best st2,
    first_least res_fun best
      (filter (fun r => res_success r = true) example_script) /\
    set_param_vec (res_x best) (fresh []) = (Ret tt, st2) /\
    fit (scripted_minimize example_script) ["AA1"] ["Aac"] 4 (fresh [])
    = (Ret (res_fun best, res_x best), st2).
Proof.
  apply (fit_returns_first_best (scripted_minimize example_script)
           ["AA1"] ["Aac"] 4 (fresh []) (fresh []) example_script).
  - reflexivity.
  - discriminate.
  - apply fresh_keys_ok.
Defined.

Example fit_scripted_example :
  fst (fit (scripted_minimize example_script) ["AA1"] ["Aac"] 4 (fresh []))
  = Ret (Q2Qc (1 # 4), [1%Qc; 1%Qc; 1%Qc; 0%Qc]).
Proof. vm_compute. reflexivity. Qed.

(** ** What the methods leave alone *)

Lemma frame_refl (st : mreasoner) : frame st st.
Proof.
  unfold frame. split; [reflexivity|]. split; [reflexivity|].
  split; [exists []; rewrite app_nil_r; reflexivity|].
  split; [exists 0; reflexivity|trivial].
Qed.

Lemma frame_trans (st1 st2 st3 : mreasoner) :
  frame st1 st2 -> frame st2 st3 -> frame st1 st3.
Proof.
  intros (Hb & Hd & [c Hc] & [n Hn] & Hk) (Hb' & Hd' & [c' Hc'] & [n' Hn'] & Hk').
  unfold frame. split; [congruence|]. split; [congruence|].
  split; [exists (c ++ c')%list; rewrite Hc', Hc, app_assoc; reflexivity|].
  split; [exists (n + n'); rewrite Hn', Hn, drop_drop; reflexivity|auto].
Qed.

Lemma bind_frame {A B} (m : M A) (k : A -> M B) (st : mreasoner) :
  frame st (snd (m st)) ->
  (forall a st1, frame st1 (snd (k a st1))) ->
  frame st (snd ((m ≫= k) st)).
Proof.
  intros Hm Hk. unfold mbind, M_bind.
  destruct (m st) as [[a|e|] st1]; simpl in *; [|exact Hm|exact Hm].
  eapply frame_trans; [exact Hm|apply Hk].
Qed.

Lemma for_each_frame {A} (body : A -> M unit) (l : list A) :
  (forall x st, frame st (snd (body x st))) ->
  forall st, frame st (snd (for_each body l st)).
Proof.
  intros Hbody. induction l as [|x l IH]; intros st.
  - apply frame_refl.
  - cbn [for_each]. apply bind_frame; [apply Hbody|]. intros _ st1. apply IH.
Qed.

Lemma fold_loop_frame {A B} (body : B -> A -> M B) (l : list A) :
  (forall acc x st, frame st (snd (body acc x st))) ->
  forall acc st, frame st (snd (fold_loop body acc l st)).
Proof.
  intros Hbody. induction l as [|x l IH]; intros acc st.
  - apply frame_refl.
  - cbn [fold_loop]. apply bind_frame; [apply Hbody|]. intros acc' st1.
    apply IH.
Qed.

Lemma set_param_frame (param : string) (value : Qc) (st : mreasoner) :
  frame st (snd (set_param param value st)).
Proof.
  pose proof (set_param_keys_ok param value st) as Hk.
  rewrite set_param_unfold in *.
  destruct (params st !! param); [|apply frame_refl].
  unfold frame. split; [reflexivity|]. split; [reflexivity|].
  split; [eexists; reflexivity|].
  split; [exists 0; reflexivity|exact Hk].
Qed.

Lemma set_param_vec_frame (values : list Qc) (st : mreasoner) :
  frame st (snd (set_param_vec values st)).
Proof. apply for_each_frame. intros nv st1. apply set_param_frame. Qed.

Lemma query_frame_keys (syllog : string) (st : mreasoner) :
  frame st (snd (query syllog st)).
Proof.
  destruct (query_state syllog st) as (cmds & n & _ & _ & ->).
  unfold frame. split; [reflexivity|]. split; [reflexivity|].
  split; [exists cmds; reflexivity|].
  split; [exists n; reflexivity|trivial].
Qed.

Lemma fit_fun_frame_keys
  (values : list Qc) (train_x train_y : list string) (st : mreasoner) :
  frame st (snd (_fit_fun values train_x train_y st)).
Proof.
  unfold _fit_fun. apply bind_frame; [apply set_param_vec_frame|].
  intros _ st1. apply bind_frame.
  - apply fold_loop_frame. intros acc tr st2.
    apply bind_frame; [apply query_frame_keys|]. intros pred st3.
    apply frame_refl.
  - intros score st2. destruct (length train_x); apply frame_refl.
Qed.

(** X20: whatever its outcome, [_fit_fun] leaves the bounds and the
    defaults unchanged, only appends to the commands, only takes entries
    from the front of the queue, and keeps the four parameter keys. *)
Theorem fit_fun_frame
  (values : list Qc) (train_x train_y : list string) (st : mreasoner) :
  frame st (snd (_fit_fun values train_x train_y st)).
Proof. exact (fit_fun_frame_keys values train_x train_y st). Qed.

(** ** Loops in the state monad *)

Lemma bind_ret_r {A} (m : M A) (st : mreasoner) : (m ≫= mret) st = m st.
Proof.
  unfold mbind, M_bind. destruct (m st) as [[a|e|] st1]; reflexivity.
Qed.

Lemma fold_loop_app {A B} (body : B -> A -> M B) (l1 l2 : list A) :
  forall acc st,
    fold_loop body acc (l1 ++ l2)%list st
    = (fold_loop body acc l1 ≫= fun acc' => fold_loop body acc' l2) st.
Proof.
  induction l1 as [|x l1 IH]; intros acc st.
  - reflexivity.
  - cbn [app fold_loop]. unfold mbind, M_bind.
    destruct (body acc x st) as [[acc'|e|] st1]; try reflexivity.
    rewrite IH. reflexivity.
Qed.

Lemma fold_loop_list_bind {A B C} (body : B -> C -> M B) (f : A -> list C)
      (l : list A) :
  forall acc st,
    fold_loop body acc (l ≫= f) st
    = fold_loop (fun acc x => fold_loop body acc (f x)) acc l st.
Proof.
  induction l as [|x l IH]; intros acc st.
  - reflexivity.
  - rewrite bind_cons, fold_loop_app. cbn [fold_loop].
    unfold mbind at 1 3, M_bind.
    destruct (fold_loop body acc (f x) st) as [[acc'|e|] st1];
      try reflexivity.
    apply IH.
Qed.

Lemma fold_loop_ext {A B} (I : mreasoner -> Prop)
      (body1 body2 : B -> A -> M B) (l : list A) :
  (forall acc x st, I st -> body1 acc x st = body2 acc x st) ->
  (forall acc x st, I st -> I (snd (body2 acc x st))) ->
  forall acc st, I st -> fold_loop body1 acc l st = fold_loop body2 acc l st.
Proof.
  intros Heq Hinv. induction l as [|x l IH]; intros acc st HI;
    [reflexivity|].
  cbn [fold_loop]. unfold mbind, M_bind. rewrite (Heq acc x st HI).
  pose proof (Hinv acc x st HI) as HI'.
  destruct (body2 acc x st) as [[acc'|e|] st1]; try reflexivity.
  apply IH, HI'.
Qed.

(** A relation that every iteration respects holds between the initial
    and the final accumulator. *)
Lemma fold_loop_rel {A B} (R : B -> B -> Prop) (body : B -> A -> M B)
      (l : list A) :
  (forall b, R b b) ->
  (forall b1 b2 b3, R b1 b2 -> R b2 b3 -> R b1 b3) ->
  (forall acc x st acc' st', body acc x st = (Ret acc', st') -> R acc acc') ->
  forall acc st acc' st',
    fold_loop body acc l st = (Ret acc', st') -> R acc acc'.
Proof.
  intros Hrefl Htrans Hbody. induction l as [|x l IH];
    intros acc st acc' st' H.
  - cbn [fold_loop] in H. unfold mret, M_ret in H. simplify_eq.
    apply Hrefl.
  - cbn [fold_loop] in H. unfold mbind, M_bind in H.
    destruct (body acc x st) as [[acc1|e|] st1] eqn:Hb; try discriminate H.
    eapply Htrans; [eapply Hbody, Hb|eapply IH, H].
Qed.

(** ** The grid search *)

Lemma try_params_frame (train_x train_y : list string) (best : incumbent)
      (values : list Qc) (st : mreasoner) :
  frame st (snd (try_params train_x train_y best values st)).
Proof.
  unfold try_params. apply bind_frame; [apply fit_fun_frame_keys|].
  intros error st1. apply frame_refl.
Qed.

Lemma search_loop_bounds (train_x train_y : list string) (best : incumbent)
      (cands : list (list Qc)) (st : mreasoner) :
  param_bounds (snd (fold_loop (try_params train_x train_y) best cands st))
  = param_bounds st.
Proof.
  apply (fold_loop_frame (try_params train_x train_y) cands
           (try_params_frame train_x train_y) best st).
Qed.

Lemma grid_axis_eq (i : nat) (num : Z) (b : Qc * Qc) (st : mreasoner) :
  param_bounds st !! i = Some b -> (0 <= num)%Z ->
  grid_axis i num st = (Ret (axis_values b num), st).
Proof.
  intros Hb Hn. unfold grid_axis, self. unfold mbind, M_bind. rewrite Hb.
  unfold lift, linspace. destruct (Z.ltb_spec num 0); [lia|reflexivity].
Qed.

(** One level of the nest: the axis is read from the bounds, which no
    iteration changes, so the level runs over the same values each time. *)
Lemma grid_level (bounds : list (Qc * Qc)) (i : nat) (num : Z) (b : Qc * Qc)
      (train_x train_y : list string) (body : incumbent -> Qc -> M incumbent)
      (points : Qc -> list (list Qc)) :
  bounds !! i = Some b -> (0 <= num)%Z ->
  (forall best p st, param_bounds st = bounds ->
     body best p st
     = fold_loop (try_params train_x train_y) best (points p) st) ->
  forall best st, param_bounds st = bounds ->
    (grid_axis i num ≫= fun values => fold_loop body best values) st
    = fold_loop (try_params train_x train_y) best
                (axis_values b num ≫= points) st.
Proof.
  intros Hb Hn Hbody best st Hst. subst bounds.
  unfold mbind at 1, M_bind at 1.
  rewrite (grid_axis_eq i num b st Hb Hn), fold_loop_list_bind.
  apply (fold_loop_ext (fun st' => param_bounds st' = param_bounds st)).
  - exact Hbody.
  - intros acc x st1 H1. rewrite search_loop_bounds. exact H1.
  - reflexivity.
Qed.

Lemma bind_cong_l {A B} (m1 m2 : M A) (k : A -> M B) (st : mreasoner) :
  m1 st = m2 st -> (m1 ≫= k) st = (m2 ≫= k) st.
Proof. unfold mbind, M_bind. intros ->. reflexivity. Qed.

(** The four nested loops evaluate the points of the grid in order. *)
Lemma fit_grid_flat (train_x train_y : list string) (num : Z)
      (b0 b1 b2 b3 : Qc * Qc) (st : mreasoner) :
  param_bounds st !! 0 = Some b0 -> param_bounds st !! 1 = Some b1 ->
  param_bounds st !! 2 = Some b2 -> param_bounds st !! 3 = Some b3 ->
  (0 <= num)%Z ->
  fit_grid train_x train_y num st
  = (fold_loop (try_params train_x train_y) (Qc_of_Z 2, None)
               (grid_points b0 b1 b2 b3 num) ≫= finish_search) st.
Proof.
  intros H0 H1 H2 H3 Hn. unfold fit_grid.
  unfold mbind at 1, M_bind at 1. rewrite (grid_axis_eq 0 num b0 st H0 Hn).
  apply bind_cong_l. unfold grid_points.
  rewrite fold_loop_list_bind.
  rewrite (fold_loop_ext (fun st' => param_bounds st' = param_bounds st)
             _ (fun acc e => fold_loop (try_params train_x train_y) acc
                  (l ← axis_values b1 num; o ← axis_values b2 num;
                   s ← axis_values b3 num; [[e; l; o; s]]))); try reflexivity.
  - intros best e st1 Hst1.
    apply (grid_level (param_bounds st) 1 num b1 train_x train_y
             _ (fun l => o ← axis_values b2 num; s ← axis_values b3 num;
                         [[e; l; o; s]]) H1 Hn); [|exact Hst1].
    clear best st1 Hst1. intros best l st1 Hst1.
    apply (grid_level (param_bounds st) 2 num b2 train_x train_y
             _ (fun o => s ← axis_values b3 num; [[e; l; o; s]]) H2 Hn);
      [|exact Hst1].
    clear best st1 Hst1. intros best o st1 Hst1.
    apply (grid_level (param_bounds st) 3 num b3 train_x train_y
             _ (fun s => [[e; l; o; s]]) H3 Hn); [|exact Hst1].
    clear best st1 Hst1. intros best s st1 Hst1.
    cbn [fold_loop]. rewrite bind_ret_r. reflexivity.
  - intros acc x st1 Hst1. rewrite search_loop_bounds. exact Hst1.
Qed.


Lemma try_params_eq (train_x train_y : list string) (best : incumbent)
      (values : list Qc) (st : mreasoner) :
  try_params train_x train_y best values st
  = match _fit_fun values train_x train_y st with
    | (Ret error, st') => (Ret (keep_best best error values), st')
    | (Exc e, st') => (Exc e, st')
    | (Block, st') => (Block, st')
    end.
Proof. reflexivity. Qed.








Lemma fit_grid_neg (train_x train_y : list string) (num : Z) (b0 : Qc * Qc)
      (st : mreasoner) :
  param_bounds st !! 0 = Some b0 -> (num < 0)%Z ->
  fit_grid train_x train_y num st = (Exc ValueError, st).
Proof.
  intros H0 Hn. unfold fit_grid. unfold mbind at 1, M_bind at 1.
  unfold grid_axis, self. unfold mbind at 1, M_bind at 1. rewrite H0.
  unfold lift, linspace. destruct (Z.ltb_spec num 0); [reflexivity|lia].
Qed.

(** X22: [fit_grid] needs a positive [num].  A negative one is refused by
    [np.linspace] with [ValueError]; with [num = 0] no point is evaluated,
    [best_params] is still [None] when the loops end, and
    [set_param_vec(None)] fails.  In both cases nothing is sent. *)
Theorem fit_grid_without_points
  (train_x train_y : list string) (num : Z) (b0 : Qc * Qc) (st : mreasoner) :
  param_bounds st !! 0 = Some b0 -> (num <= 0)%Z ->
  fit_grid train_x train_y num st
  = (if (num <? 0)%Z then Exc ValueError else Ret SearchTypeError, st).
Proof.
  intros H0 Hn. unfold fit_grid. unfold mbind at 1, M_bind at 1.
  unfold grid_axis, self. unfold mbind at 1, M_bind at 1. rewrite H0.
  unfold lift, linspace. destruct (Z.ltb_spec num 0) as [Hneg|Hpos];
    [reflexivity|].
  replace num with 0%Z by lia. reflexivity.
Qed.

Lemma fit_grid_without_points_witness :
  fit_grid ["AA1"] ["Aac"] 0 (fresh []) = (Ret SearchTypeError, fresh []) /\
  fit_grid ["AA1"] ["Aac"] (-3) (fresh []) = (Exc ValueError, fresh []).
Proof.
  split.
  - apply (fit_grid_without_points ["AA1"] ["Aac"] 0 (0%Qc, 1%Qc) (fresh []));
      [reflexivity|lia].
  - apply (fit_grid_without_points ["AA1"] ["Aac"] (-3) (0%Qc, 1%Qc)
             (fresh [])); [reflexivity|lia].
Defined.

Lemma axis_values_within (b : Qc * Qc) (num : Z) (v : Qc) :
  (fst b <= snd b)%Qc -> v ∈ axis_values b num ->
  (fst b <= v)%Qc /\ (v <= snd b)%Qc.
Proof.
  destruct b as [lo hi]. cbn [fst snd]. intros Hb Hv. unfold axis_values in Hv.
  apply list_elem_of_fmap in Hv as (i & -> & Hi). cbn [fst snd].
  apply elem_of_seq in Hi as [_ Hi]. simpl in Hi.
  assert (Hw : (0 <= hi - lo)%Qc).
  { unfold Qcminus. apply (proj1 (Qcle_minus_iff lo hi)), Hb. }
  assert (Ht : (0 <= Qc_of_nat i / Qc_of_Z (num - 1))%Qc
               /\ (Qc_of_nat i / Qc_of_Z (num - 1) <= 1)%Qc).
  { destruct (decide (num = 1%Z)) as [->|Hne].
    - replace i with 0 by lia. rewrite Qc_of_nat_0. split; discriminate.
    - apply Qcdiv_unit_interval.
      + rewrite <- Z2Qc_inj_0. apply (proj1 (Z2Qc_inj_lt 0 (num - 1))). lia.
      + rewrite <- Z2Qc_inj_0. unfold Qc_of_nat.
        apply (proj1 (Z2Qc_inj_le 0 (Z.of_nat i))). lia.
      + unfold Qc_of_nat.
        apply (proj1 (Z2Qc_inj_le (Z.of_nat i) (num - 1))). lia. }
  destruct Ht as [Ht0 Ht1].
  replace (Qc_of_nat i * ((hi - lo) / Qc_of_Z (num - 1)))%Qc
    with (Qc_of_nat i / Qc_of_Z (num - 1) * (hi - lo))%Qc
    by (unfold Qcdiv; ring).
  split.
  - rewrite <- (Qcplus_0_r lo) at 1. apply Qcplus_le_mono_l.
    rewrite <- (Qcmult_0_l (hi - lo)). apply Qcmult_le_compat_r; assumption.
  - replace hi with (lo + 1 * (hi - lo))%Qc at 2 by ring.
    apply Qcplus_le_mono_l, Qcmult_le_compat_r; assumption.
Qed.

Lemma grid_points_within (b0 b1 b2 b3 : Qc * Qc) (num : Z) (p : list Qc) :
  p ∈ grid_points b0 b1 b2 b3 num ->
  exists e l o s,
    p = [e; l; o; s] /\ e ∈ axis_values b0 num /\ l ∈ axis_values b1 num /\
    o ∈ axis_values b2 num /\ s ∈ axis_values b3 num.
Proof.
  unfold grid_points. intros H.
  apply list_elem_of_bind in H as (e & H & He).
  apply list_elem_of_bind in H as (l & H & Hl).
  apply list_elem_of_bind in H as (o & H & Ho).
  apply list_elem_of_bind in H as (s & H & Hs).
  apply list_elem_of_singleton in H. exists e, l, o, s. auto.
Qed.

(** The loop of a search ends on the initial best or on a candidate whose
    error, a value of the objective, is below the initial one. *)
Lemma search_loop_member (train_x train_y : list string)
      (cands : list (list Qc)) :
  forall best st best' st',
    fold_loop (try_params train_x train_y) best cands st = (Ret best', st') ->
    best' = best \/
    exists p, snd best' = Some p /\ p ∈ cands /\
              (0 <= fst best')%Qc /\ (fst best' <= 1)%Qc /\
              (fst best' < fst best)%Qc.
Proof.
  induction cands as [|values cands IH]; intros best st best' st' H.
  - cbn [fold_loop] in H. unfold mret, M_ret in H. simplify_eq. left.
    reflexivity.
  - cbn [fold_loop] in H. unfold mbind at 1, M_bind at 1 in H.
    rewrite try_params_eq in H.
    destruct (_fit_fun values train_x train_y st) as [[error|e|] st1]
      eqn:Hfit; try discriminate H.
    destruct (fit_fun_range _ _ _ _ _ _ Hfit) as [He0 He1].
    apply IH in H as [->|(p & Hp & Hin & H0 & H1 & Hlt)].
    + unfold keep_best. destruct (decide (error < fst best)%Qc) as [Hlt|_];
        [|left; reflexivity].
      right. exists values. cbn [fst snd].
      split; [reflexivity|]. split; [apply list_elem_of_here|]. auto.
    + right. exists p. split; [exact Hp|].
      split; [apply list_elem_of_further, Hin|]. split; [exact H0|].
      split; [exact H1|]. unfold keep_best in Hlt.
      destruct (decide (error < fst best)%Qc) as [Hlt'|_]; [|exact Hlt].
      exact (Qclt_trans _ _ _ Hlt Hlt').
Qed.

Lemma finish_search_return (best : incumbent) (st st' : mreasoner)
      (e : Qc) (p : list Qc) :
  finish_search best st = (Ret (SearchReturn e p), st') ->
  best = (e, Some p).
Proof.
  destruct best as [e0 [p0|]]; unfold finish_search; cbn [fst snd].
  - unfold mbind, M_bind.
    destruct (set_param_vec p0 st) as [[[]|x|] st1]; try discriminate.
    unfold mret, M_ret. intros H. simplify_eq. reflexivity.
  - unfold mret, M_ret. discriminate.
Qed.

(** X23: what [fit_grid] returns is a point of the grid: four values, one
    for each parameter and each between its two bounds when these are in
    order, together with an error between 0 and 1. *)
Theorem fit_grid_within_bounds
  (train_x train_y : list string) (num : Z) (b0 b1 b2 b3 : Qc * Qc)
  (st st' : mreasoner) (e : Qc) (p : list Qc) :
  param_bounds st !! 0 = Some b0 -> param_bounds st !! 1 = Some b1 ->
  param_bounds st !! 2 = Some b2 -> param_bounds st !! 3 = Some b3 ->
  (fst b0 <= snd b0)%Qc -> (fst b1 <= snd b1)%Qc ->
  (fst b2 <= snd b2)%Qc -> (fst b3 <= snd b3)%Qc ->
  fit_grid train_x train_y num st = (Ret (SearchReturn e p), st') ->
  (0 <= e)%Qc /\ (e <= 1)%Qc /\
  exists p_epsilon p_lambda p_omega p_sigma,
    p = [p_epsilon; p_lambda; p_omega; p_sigma] /\
    (fst b0 <= p_epsilon)%Qc /\ (p_epsilon <= snd b0)%Qc /\
    (fst b1 <= p_lambda)%Qc /\ (p_lambda <= snd b1)%Qc /\
    (fst b2 <= p_omega)%Qc /\ (p_omega <= snd b2)%Qc /\
    (fst b3 <= p_sigma)%Qc /\ (p_sigma <= snd b3)%Qc.
Proof.
  intros H0 H1 H2 H3 Hb0 Hb1 Hb2 Hb3 Hfit.
  destruct (Z.ltb_spec num 0) as [Hneg|Hpos].
  { rewrite (fit_grid_neg train_x train_y num b0 st H0 Hneg) in Hfit.
    discriminate Hfit. }
  rewrite (fit_grid_flat train_x train_y num b0 b1 b2 b3 st H0 H1 H2 H3 Hpos)
    in Hfit.
  unfold mbind, M_bind in Hfit.
  destruct (fold_loop (try_params train_x train_y) (Qc_of_Z 2, None)
              (grid_points b0 b1 b2 b3 num) st) as [[best|x|] st1] eqn:Hloop;
    try discriminate Hfit.
  apply finish_search_return in Hfit as ->.
  apply search_loop_member in Hloop as [Heq|(p' & Hp & Hin & He0 & He1 & _)];
    [discriminate Heq|].
  cbn [fst snd] in *. simplify_eq. split; [exact He0|]. split; [exact He1|].
  apply grid_points_within in Hin
    as (pe & pl & po & ps & -> & Hpe & Hpl & Hpo & Hps).
  exists pe, pl, po, ps. split; [reflexivity|].
  destruct (axis_values_within b0 num pe Hb0 Hpe).
  destruct (axis_values_within b1 num pl Hb1 Hpl).
  destruct (axis_values_within b2 num po Hb2 Hpo).
  destruct (axis_values_within b3 num ps Hb3 Hps).
  repeat (split; [assumption|]). assumption.
Qed.

(** Equal results up to the proofs that their rationals are reduced. *)
Ltac same_rationals :=
  repeat first [ reflexivity | apply Qc_is_canon; reflexivity | f_equal ].

Lemma fit_grid_within_bounds_witness :
  (0 <= Q2Qc (1 # 2))%Qc /\ (Q2Qc (1 # 2) <= 1)%Qc /\
  exists p_epsilon p_lambda p_omega p_sigma,
    [0%Qc; Qc_of_Z 8; 1%Qc; 0%Qc] = [p_epsilon; p_lambda; p_omega; p_sigma] /\
    (0 <= p_epsilon)%Qc /\ (p_epsilon <= 1)%Qc /\
    (Q2Qc (1 # 10) <= p_lambda)%Qc /\ (p_lambda <= Qc_of_Z 8)%Qc /\
    (0 <= p_omega)%Qc /\ (p_omega <= 1)%Qc /\
    (0 <= p_sigma)%Qc /\ (p_sigma <= 1)%Qc.
Proof.
  apply (fit_grid_within_bounds ["AA1"] ["Aac"] 2
           (0%Qc, 1%Qc) (Q2Qc (1 # 10), Qc_of_Z 8) (0%Qc, 1%Qc) (0%Qc, 1%Qc)
           (fresh (stub_entries
                     ["Iac"; "Iac"; "Iac"; "Iac"; "Iac"; "Iac"; "Aac Iac";
                      "Iac"; "Iac"; "Iac"; "Iac"; "Iac"; "Iac"; "Iac"; "Iac";
                      "Iac"]))
           (snd (fit_grid ["AA1"] ["Aac"] 2
                   (fresh (stub_entries
                             ["Iac"; "Iac"; "Iac"; "Iac"; "Iac"; "Iac";
                              "Aac Iac"; "Iac"; "Iac"; "Iac"; "Iac"; "Iac";
                              "Iac"; "Iac"; "Iac"; "Iac"])))));
    [reflexivity | reflexivity | reflexivity | reflexivity
    | discriminate | discriminate | discriminate | discriminate
    | vm_compute; same_rationals].
Defined.

(** ** The random search *)

Lemma draw_state (uniform : nat -> Qc -> Qc -> Qc) (k i : nat)
      (st : mreasoner) :
  snd (draw uniform k i st) = st.
Proof.
  unfold draw, self. unfold mbind, M_bind.
  destruct (param_bounds st !! i); reflexivity.
Qed.

Lemma finish_search_cases (best : incumbent) (st st' : mreasoner)
      (r : search_outcome) :
  finish_search best st = (Ret r, st') ->
  match snd best with
  | Some p => r = SearchReturn (fst best) p
  | None => r = SearchTypeError /\ st' = st
  end.
Proof.
  destruct best as [e0 [p0|]]; unfold finish_search; cbn [fst snd].
  - unfold mbind, M_bind.
    destruct (set_param_vec p0 st) as [[[]|x|] st1]; try discriminate.
    unfold mret, M_ret. intros H. simplify_eq. reflexivity.
  - unfold mret, M_ret. intros H. simplify_eq. split; reflexivity.
Qed.

(** The update keeps the best or replaces it by something strictly
    better. *)
Lemma keep_best_improves (best : incumbent) (error : Qc) (values : list Qc) :
  keep_best best error values = best \/
  (fst (keep_best best error values) < fst best)%Qc
  /\ is_Some (snd (keep_best best error values)).
Proof.
  unfold keep_best. destruct (decide (error < fst best)%Qc) as [Hlt|_];
    [right|left; reflexivity].
  cbn [fst snd]. split; [exact Hlt|eauto].
Qed.

Lemma rnd_loop_improves (uniform : nat -> Qc -> Qc -> Qc)
      (train_x train_y : list string) (l : list nat) :
  forall best st best' st',
    fold_loop
      (fun best j =>
         p_epsilon ← draw uniform (4 * j) 0;
         p_lambda ← draw uniform (4 * j + 1) 1;
         p_omega ← draw uniform (4 * j + 2) 2;
         p_sigma ← draw uniform (4 * j + 3) 3;
         try_params train_x train_y best
           [p_epsilon; p_lambda; p_omega; p_sigma])
      best l st = (Ret best', st') ->
    best' = best \/ (fst best' < fst best)%Qc /\ is_Some (snd best').
Proof.
  apply (fold_loop_rel
           (fun b b' => b' = b \/ (fst b' < fst b)%Qc /\ is_Some (snd b'))).
  - intros b. left. reflexivity.
  - intros b1 b2 b3 [->|[H12 Hs2]] [->|[H23 Hs3]]; auto.
    right. split; [exact (Qclt_trans _ _ _ H23 H12)|exact Hs3].
  - intros acc j st acc' st' H.
    unfold mbind at 1, M_bind at 1 in H.
    destruct (draw uniform (4 * j) 0 st) as [[pe|x|] st1];
      try discriminate H.
    unfold mbind at 1, M_bind at 1 in H.
    destruct (draw uniform (4 * j + 1) 1 st1) as [[pl|x|] st2];
      try discriminate H.
    unfold mbind at 1, M_bind at 1 in H.
    destruct (draw uniform (4 * j + 2) 2 st2) as [[po|x|] st3];
      try discriminate H.
    unfold mbind at 1, M_bind at 1 in H.
    destruct (draw uniform (4 * j + 3) 3 st3) as [[ps|x|] st4];
      try discriminate H.
    rewrite try_params_eq in H.
    destruct (_fit_fun [pe; pl; po; ps] train_x train_y st4)
      as [[error|x|] st5]; try discriminate H.
    simplify_eq. apply keep_best_improves.
Qed.

(** X24: with a non-empty [old_params], [fit_rnd] never ends worse than
    it began: when the evaluation of [old_params] returns the error [e0]
    and the search returns, it returns parameters with their error, and
    these are [old_params] with [e0] or parameters of an error strictly
    below [e0]; the final [TypeError] cannot occur. *)
Theorem fit_rnd_keeps_old
  (uniform : nat -> Qc -> Qc -> Qc) (train_x train_y : list string)
  (num : Z) (v : Qc) (vs : list Qc) (st st0 st' : mreasoner) (e0 : Qc)
  (r : search_outcome) :
  _fit_fun (v :: vs) train_x train_y st = (Ret e0, st0) ->
  fit_rnd uniform train_x train_y num (Some (v :: vs)) st = (Ret r, st') ->
  exists e p,
    r = SearchReturn e p /\ ((e = e0 /\ p = v :: vs) \/ (e < e0)%Qc).
Proof.
  intros Hold Hfit. unfold fit_rnd in Hfit.
  unfold mbind at 1, M_bind at 1 in Hfit.
  unfold mbind at 1, M_bind at 1 in Hfit. rewrite Hold in Hfit.
  unfold mret at 1, M_ret at 1 in Hfit.
  unfold mbind at 1, M_bind at 1 in Hfit.
  match type of Hfit with
  | context [fold_loop ?body ?acc ?l ?s] =>
      destruct (fold_loop body acc l s) as [[best|x|] st1] eqn:Hloop;
        try discriminate Hfit
  end.
  apply finish_search_cases in Hfit.
  apply rnd_loop_improves in Hloop as [->|[Hlt [p Hp]]].
  - cbn [fst snd] in Hfit. exists e0, (v :: vs). auto.
  - rewrite Hp in Hfit. exists (fst best), p. auto.
Qed.

Lemma fit_rnd_keeps_old_witness :
  exists e p,
    SearchReturn 0%Qc [0%Qc; Q2Qc (1 # 10); 0%Qc; 0%Qc] = SearchReturn e p /\
    ((e = Q2Qc (1 # 2) /\ p = factory_vector) \/ (e < Q2Qc (1 # 2))%Qc).
Proof.
  apply (fit_rnd_keeps_old lowest ["AA1"] ["Aac"] 1 0%Qc
           [Qc_of_Z 4; 1%Qc; 0%Qc]
           (fresh (stub_entries ["Aac Iac"; "Aac"]))
           (snd (_fit_fun factory_vector ["AA1"] ["Aac"]
                   (fresh (stub_entries ["Aac Iac"; "Aac"]))))
           (snd (fit_rnd lowest ["AA1"] ["Aac"] 1 (Some factory_vector)
                   (fresh (stub_entries ["Aac Iac"; "Aac"])))));
    vm_compute; same_rationals.
Defined.

(** X25: without a usable [old_params] ([None] or an empty list) and with
    [num] at most 0, [fit_rnd] draws and evaluates nothing, [best_params]
    is still [None] at the end and [set_param_vec(None)] fails; nothing is
    sent. *)
Theorem fit_rnd_without_draws
  (uniform : nat -> Qc -> Qc -> Qc) (train_x train_y : list string)
  (num : Z) (old_params : option (list Qc)) (st : mreasoner) :
  (num <= 0)%Z -> old_params = None \/ old_params = Some [] ->
  fit_rnd uniform train_x train_y num old_params st
  = (Ret SearchTypeError, st).
Proof.
  intros Hn Hold. unfold fit_rnd. replace (Z.to_nat num) with 0 by lia.
  destruct Hold as [->| ->]; reflexivity.
Qed.

Lemma fit_rnd_without_draws_witness :
  fit_rnd lowest ["AA1"] ["Aac"] 0 (Some []) (fresh [])
  = (Ret SearchTypeError, fresh []).
Proof.
  apply (fit_rnd_without_draws lowest ["AA1"] ["Aac"] 0 (Some []) (fresh []));
    [lia|right; reflexivity].
Defined.

(** ** The scan of [source_path] *)

Lemma source_path_skips (isdir : string -> bool) (sep : string)
      (names : list string) (path : string) :
  (forall n, n ∈ names ->
     isdir (path ++ sep ++ n) = false \/ Py.startswith "_" n = true) ->
  source_path isdir sep names path = path.
Proof.
  unfold source_path. induction names as [|n names IH]; intros Hskip.
  - reflexivity.
  - cbn [foldl]. unfold scan_entry at 2.
    destruct (Hskip n (list_elem_of_here _ _)) as [-> | ->].
    + cbn [negb orb]. apply IH. intros m Hm.
      apply Hskip, list_elem_of_further, Hm.
    + rewrite orb_true_r. apply IH. intros m Hm.
      apply Hskip, list_elem_of_further, Hm.
Qed.

(** X26: [source_path] tests every entry of the listing below the path
    it has reached so far.  When [name] is the first entry that is a
    directory below the initial path and does not start with an
    underscore, and no later entry is such a directory below
    [<path>/<name>/src], the result is [<path>/<name>/src]; later
    directories of the listing itself play no part. *)
Theorem source_path_first_directory
  (isdir : string -> bool) (sep mreas_path name : string)
  (before after : list string) :
  (forall n, n ∈ before ->
     isdir (mreas_path ++ sep ++ n) = false \/ Py.startswith "_" n = true) ->
  isdir (mreas_path ++ sep ++ name) = true ->
  Py.startswith "_" name = false ->
  (forall n, n ∈ after ->
     isdir (((mreas_path ++ sep ++ name) ++ sep ++ "src") ++ sep ++ n) = false
     \/ Py.startswith "_" n = true) ->
  source_path isdir sep (before ++ name :: after)%list mreas_path
  = (mreas_path ++ sep ++ name) ++ sep ++ "src".
Proof.
  intros Hbefore Hdir Hname Hafter. unfold source_path.
  rewrite foldl_app. cbn [foldl].
  fold (source_path isdir sep before mreas_path).
  rewrite (source_path_skips isdir sep before mreas_path Hbefore).
  unfold scan_entry at 2. rewrite Hdir, Hname. cbn [negb orb].
  apply (source_path_skips isdir sep after _ Hafter).
Qed.

Lemma source_path_first_directory_witness :
  source_path
    (fun p => String.eqb p ".mreasoner/mReasoner"
              || String.eqb p ".mreasoner/docs"
              || String.eqb p ".mreasoner/__MACOSX")
    "/" ["mReasoner.zip"; "__MACOSX"; "mReasoner"; "docs"] ".mreasoner"
  = (".mreasoner" ++ "/" ++ "mReasoner") ++ "/" ++ "src".
Proof.
  apply (source_path_first_directory _ "/" ".mreasoner" "mReasoner"
           ["mReasoner.zip"; "__MACOSX"] ["docs"]).
  - intros n Hn. apply elem_of_cons in Hn as [->|Hn]; [left; reflexivity|].
    apply list_elem_of_singleton in Hn as ->. right. reflexivity.
  - reflexivity.
  - reflexivity.
  - intros n Hn. apply list_elem_of_singleton in Hn as ->. left. reflexivity.
Defined.

(** ** The earlier wrapper *)

(** X27: the [query] of the earlier wrapper.  On a text that does not
    name two quantifiers and a figure it raises before anything is written.
    On an identifier it writes the generation command and one command that
    prints the marker and the abbreviated first conclusion, and returns the
    first queue entry as it is, a text and not a list; with an empty queue
    it waits for ever after both commands have been written. *)
Theorem legacy_query_protocol (syllog : string) (st : Legacy.mreasoner) :
  Legacy.query syllog st
  = match decode_syllog syllog with
    | None =>
        (Exc (if Py.is_empty syllog then IndexError else KeyError), st)
    | Some (q1, q2, f) =>
        let written :=
          (Legacy.stdin_lines st
           ++ [generation_command (documented_premises q1 q2 f);
               legacy_interpretation_command])%list in
        match Legacy.resp_queue st with
        | [] => (Block, Legacy.MReasoner written [])
        | entry :: rest => (Ret entry, Legacy.MReasoner written rest)
        end
    end.
Proof.
  unfold Legacy.query. unfold mbind at 1, Legacy.M_bind at 1, Legacy.lift at 1.
  rewrite construct_premises_decode.
  destruct (decode_syllog syllog) as [[[q1 q2] f]|];
    [|destruct (Py.is_empty syllog); reflexivity].
  generalize (documented_premises q1 q2 f). intros prems.
  unfold mbind, Legacy.M_bind, Legacy.lift, Legacy._send,
    Legacy.resp_queue_get.
  destruct st as [written queue].
  unfold generation_command, what_follows, legacy_interpretation_command.
  simpl. rewrite <- app_assoc.
  destruct queue as [|entry rest]; reflexivity.
Qed.

Lemma legacy_reader_bounded (n : nat) :
  forall lines, length lines <= n ->
    3 * length (fst (Legacy.stdout_reader lines)) <= length lines /\
    forall entry, entry ∈ fst (Legacy.stdout_reader lines) ->
      all_chars (fun c => negb (Ascii.eqb c Py.dquote)) entry = true.
Proof.
  induction n as [|n IH]; intros [|raw rest] Hlen;
    try (split; [simpl; lia|intros entry H; inversion H]).
  { simpl in Hlen. lia. }
  assert (Hrest : length rest <= n) by (simpl in Hlen; lia).
  assert (Hskip :
    3 * length (fst (Legacy.stdout_reader rest)) <= length (raw :: rest) /\
    forall entry, entry ∈ fst (Legacy.stdout_reader rest) ->
      all_chars (fun c => negb (Ascii.eqb c Py.dquote)) entry = true).
  { destruct (IH rest Hrest) as [H3 Hq]. split; [simpl; lia|exact Hq]. }
  assert (Hnone : forall status : reader_status,
    3 * length (fst (@nil string, status)) <= length (raw :: rest) /\
    forall entry, entry ∈ fst (@nil string, status) ->
      all_chars (fun c => negb (Ascii.eqb c Py.dquote)) entry = true).
  { intros status. split; [simpl; lia|intros entry H; inversion H]. }
  cbn [Legacy.stdout_reader].
  destruct (decode_ascii raw) as [decoded|e|]; [|apply Hnone|apply Hnone].
  generalize (Py.strip decoded). intros text.
  destruct (Py.startswith ";" text || Py.startswith "?" text);
    [exact Hskip|].
  destruct (Py.contains "TERMINATE" text); [apply Hnone|].
  destruct (String.eqb text (quoted "RESULT")); [|exact Hskip].
  destruct rest as [|skipped [|raw' rest']]; [apply Hnone|apply Hnone|].
  destruct (decode_ascii raw') as [decoded'|e|]; [|apply Hnone|apply Hnone].
  assert (Hrest' : length rest' <= n) by (simpl in Hrest; lia).
  destruct (IH rest' Hrest') as [H3 Hq].
  destruct (Legacy.stdout_reader rest') as [more status].
  cbn [fst] in *. split; [simpl; simpl in H3; lia|].
  intros entry Hentry.
  apply elem_of_cons in Hentry as [->|Hentry]; [|apply Hq, Hentry].
  apply replace_removes.
Qed.

(** X28: the reader of the earlier wrapper uses three lines for every
    entry it puts on the queue (the marker, a dropped line and the
    result), so it never puts more than a third as many entries as it has
    read lines, and no entry contains a double quote. *)
Theorem legacy_reader_entries (lines : list string) :
  3 * length (fst (Legacy.stdout_reader lines)) <= length lines /\
  forall entry, entry ∈ fst (Legacy.stdout_reader lines) ->
    all_chars (fun c => negb (Ascii.eqb c Py.dquote)) entry = true.
Proof. exact (legacy_reader_bounded (length lines) lines (le_n _)). Qed.

Lemma legacy_reader_entries_witness :
  Legacy.stdout_reader
    ["; loading"; " " ++ quoted "RESULT"; "junk"; quoted "Aac" ++ " "]
  = (["Aac"], Reading) /\
  all_chars (fun c => negb (Ascii.eqb c Py.dquote)) "Aac" = true.
Proof.
  split; [vm_compute; reflexivity|].
  apply (proj2 (legacy_reader_entries
                  ["; loading"; " " ++ quoted "RESULT"; "junk";
                   quoted "Aac" ++ " "])).
  vm_compute. apply list_elem_of_here.
Defined.
